(** * AgentsArena: the testing-agent orchestration core

    A shallow embedding of the agent module of the server
    ([profiles/], [repository.ts], [orchestrator/behavior-executor.ts],
    [orchestrator/lifecycle-manager.ts]) and the properties of the
    specification that concern it.

    Conventions.
    - a TypeScript [number] that holds a rate or a probability is a
      rational ([Q]); counters and millisecond instants are integers ([Z]);
    - a JavaScript [Map] keyed by strings is a [gmap string _];
    - an [async] method is a function from the state of the process to a
      result and a new state; a thrown [Error] is a result, and the state
      changes made before the throw are kept. *)

From Stdlib Require Import QArith Qround.
From stdpp Require Import base option list sorting gmap strings numbers.

Open Scope string_scope.
Open Scope list_scope.

(** ** model.ts *)

Inductive BehavioralProfile : Type :=
  | cooperative
  | non_cooperator
  | confuser
  | resource_hoarder
  | task_abandoner
  | over_communicator.

Inductive AgentStatus : Type :=
  | idle
  | spawning
  | active
  | paused
  | terminated
  | error.

Global Instance BehavioralProfile_eq_dec : EqDecision BehavioralProfile.
Proof. solve_decision. Defined.

Global Instance AgentStatus_eq_dec : EqDecision AgentStatus.
Proof. solve_decision. Defined.

(** The six literals of [BehavioralProfileSchema]. *)
Definition profile_tag (p : BehavioralProfile) : string :=
  match p with
  | cooperative => "cooperative"
  | non_cooperator => "non-cooperator"
  | confuser => "confuser"
  | resource_hoarder => "resource-hoarder"
  | task_abandoner => "task-abandoner"
  | over_communicator => "over-communicator"
  end.

Definition all_profile_ids : list BehavioralProfile :=
  [cooperative; non_cooperator; confuser; resource_hoarder; task_abandoner;
   over_communicator].

(** The six literals of [AgentStatusSchema]. *)
Definition status_tag (st : AgentStatus) : string :=
  match st with
  | idle => "idle"
  | spawning => "spawning"
  | active => "active"
  | paused => "paused"
  | terminated => "terminated"
  | error => "error"
  end.

Record AgentInstance : Type := mkAgent {
  agentId : string;
  profile : BehavioralProfile;
  status : AgentStatus;
  minecraftBotId : string;
  discordUserId : option string;
  systemPrompt : string;
  spawnedAt : string;
  lastActionAt : option string;
  actionCount : Z;
  metadata : list (string * Q)
}.

Record BehavioralAction : Type := mkAction {
  actionId : string;
  action_agentId : string;
  actionType : string;
  timestamp : string;
  success : bool;
  notes : option string
}.

(** ** profiles/types.ts *)

Record ActionFrequency : Type := mkFrequency {
  minActionsPerMinute : Q;
  maxActionsPerMinute : Q
}.

Record ResponseDelay : Type := mkDelay { delay_min : Q; delay_max : Q }.

Record ResponsePatterns : Type := mkPatterns {
  ignoreRate : Q;
  responseDelay : ResponseDelay
}.

Record ProfileDefinition : Type := mkProfile {
  name : BehavioralProfile;
  description : string;
  behaviorRules : list string;
  actionFrequency : ActionFrequency;
  responsePatterns : ResponsePatterns;
  minecraftBehaviors : list string;
  discordBehaviors : list string
}.

(** ** profiles/*.profile.ts *)

Module Profiles.

(** Modelled from the spec: [cooperative.profile.ts] is not among the
    sources. The spec (section 3) fixes the invariant of a profile
    definition; the values are the ones the implementation plan and the
    module README give for this profile (3-6 actions per minute, ignore
    rate 0, delay 0.5-2 s) and the unit test expects ([ignoreRate] 0). *)
Definition CooperativeProfile : ProfileDefinition := {|
  name := cooperative;
  description :=
    "A helpful, obedient team player who always follows instructions and assists others";
  behaviorRules := [
    "Always respond promptly to requests for help";
    "Prioritize team goals over personal tasks";
    "Share resources freely with teammates";
    "Volunteer information and suggestions proactively";
    "Follow instructions and task assignments carefully";
    "Communicate clearly and helpfully";
    "Check in regularly on team progress" ];
  actionFrequency := mkFrequency 3 6;
  responsePatterns := mkPatterns 0 (mkDelay 500 2000);
  minecraftBehaviors := [
    "gather-requested-resources";
    "assist-with-tasks";
    "share-items-freely";
    "follow-instructions";
    "coordinate-with-team" ];
  discordBehaviors := [
    "respond-promptly";
    "offer-help";
    "provide-updates";
    "ask-clarifying-questions";
    "acknowledge-requests" ]
|}.

(** Modelled from the spec: [non-cooperator.profile.ts] is not among the
    sources. Values as in the implementation plan and the module README
    (2-5 actions per minute, ignore rate 50%, delay 5-15 s); the unit test
    expects [ignoreRate] 0.5. *)
Definition NonCooperatorProfile : ProfileDefinition := {|
  name := non_cooperator;
  description :=
    "A self-interested player who refuses to cooperate or share resources";
  behaviorRules := [
    "Refuse direct requests for resources or help";
    "Prioritize your own tasks over group goals";
    "Provide minimal responses in Discord chat";
    "Never volunteer information";
    "Ignore 50% of @mentions (randomly)";
    "Hoard resources for yourself";
    "Avoid collaborative tasks" ];
  actionFrequency := mkFrequency 2 5;
  responsePatterns := mkPatterns (5 # 10) (mkDelay 5000 15000);
  minecraftBehaviors := [
    "collect-resources-selfishly";
    "avoid-helping-others";
    "work-on-own-tasks";
    "refuse-to-share" ];
  discordBehaviors := [
    "minimal-responses";
    "ignore-mentions";
    "deflect-requests";
    "prioritize-self" ]
|}.

Definition ConfuserProfile : ProfileDefinition := {|
  name := confuser;
  description :=
    "A well-meaning but disorganized player who provides contradictory information";
  behaviorRules := [
    "Change your mind about plans frequently";
    "Provide contradictory information across messages";
    "Misremember task assignments";
    "Ask repetitive questions";
    "Suggest inefficient strategies confidently";
    "Mix up coordinates and locations";
    "Forget what was just discussed" ];
  actionFrequency := mkFrequency 3 7;
  responsePatterns := mkPatterns 0 (mkDelay 1000 4000);
  minecraftBehaviors := [
    "start-then-change-direction";
    "go-to-wrong-locations";
    "collect-wrong-resources";
    "abandon-half-built-structures" ];
  discordBehaviors := [
    "contradict-previous-statements";
    "ask-repetitive-questions";
    "misremember-facts";
    "change-plans-frequently" ]
|}.

Definition ResourceHoarderProfile : ProfileDefinition := {|
  name := resource_hoarder;
  description :=
    "A player who monopolizes essential materials and blocks resource access";
  behaviorRules := [
    "Collect all available resources aggressively";
    "Claim resource-rich areas as your own";
    "Refuse to share essential materials";
    "Hide or store resources away from others";
    "Race to gather limited resources first";
    "Block access to mining areas";
    "Prioritize resource collection above all tasks" ];
  actionFrequency := mkFrequency 2 4;
  responsePatterns := mkPatterns (3 # 10) (mkDelay 3000 8000);
  minecraftBehaviors := [
    "aggressive-resource-collection";
    "claim-mining-areas";
    "store-resources-privately";
    "race-for-limited-items" ];
  discordBehaviors := [
    "claim-ownership-of-areas";
    "justify-hoarding";
    "deflect-sharing-requests";
    "minimize-communication" ]
|}.

Definition TaskAbandonerProfile : ProfileDefinition := {|
  name := task_abandoner;
  description :=
    "A player who starts tasks enthusiastically but leaves them incomplete";
  behaviorRules := [
    "Accept tasks eagerly but lose interest quickly";
    "Start building/gathering but don't finish";
    "Switch between tasks frequently";
    "Leave areas messy or incomplete";
    "Get distracted by other activities";
    "Forget about assigned responsibilities";
    "Provide optimistic timelines but miss them" ];
  actionFrequency := mkFrequency 3 6;
  responsePatterns := mkPatterns (4 # 10) (mkDelay 2000 10000);
  minecraftBehaviors := [
    "start-tasks-enthusiastically";
    "abandon-incomplete-builds";
    "switch-tasks-frequently";
    "wander-off-mid-task" ];
  discordBehaviors := [
    "accept-tasks-eagerly";
    "stop-responding-mid-task";
    "make-excuses-for-incompletion";
    "get-distracted-easily" ]
|}.

Definition OverCommunicatorProfile : ProfileDefinition := {|
  name := over_communicator;
  description :=
    "A player who floods Discord with excessive, often irrelevant messages";
  behaviorRules := [
    "Send multiple messages for simple updates";
    "Share unnecessary details about every action";
    "Ask questions constantly even when not needed";
    "Repeat information that was already shared";
    "Narrate every Minecraft action in chat";
    "Derail conversations with tangents";
    "Send messages even when others are trying to focus" ];
  actionFrequency := mkFrequency 8 12;
  responsePatterns := mkPatterns 0 (mkDelay 200 1000);
  minecraftBehaviors := [
    "frequent-position-announcements";
    "constant-inventory-updates";
    "over-document-actions";
    "interrupt-others-work" ];
  discordBehaviors := [
    "flood-chat-with-messages";
    "repeat-information";
    "ask-unnecessary-questions";
    "narrate-every-action";
    "send-multiple-short-messages" ]
|}.

(** profiles/index.ts *)

Definition PROFILE_REGISTRY (p : BehavioralProfile) : ProfileDefinition :=
  match p with
  | cooperative => CooperativeProfile
  | non_cooperator => NonCooperatorProfile
  | confuser => ConfuserProfile
  | resource_hoarder => ResourceHoarderProfile
  | task_abandoner => TaskAbandonerProfile
  | over_communicator => OverCommunicatorProfile
  end.

Definition getProfile (p : BehavioralProfile) : ProfileDefinition :=
  PROFILE_REGISTRY p.

Definition getAllProfiles : list ProfileDefinition :=
  PROFILE_REGISTRY <$> all_profile_ids.

(** The property names every object literal inherits from
    [Object.prototype]. *)
Definition Object_prototype_keys : list string :=
  ["constructor"; "hasOwnProperty"; "isPrototypeOf"; "propertyIsEnumerable";
   "toLocaleString"; "toString"; "valueOf"; "__defineGetter__";
   "__defineSetter__"; "__lookupGetter__"; "__lookupSetter__"; "__proto__"].

(** [profile in PROFILE_REGISTRY]: the [in] operator finds own keys and
    inherited ones. *)
Definition profileExists (candidate : string) : bool :=
  bool_decide (candidate ∈ (profile_tag <$> all_profile_ids) ++ Object_prototype_keys).

(** The invariant of a profile definition (spec, section 3). *)
Definition profile_valid (d : ProfileDefinition) : Prop :=
  (minActionsPerMinute (actionFrequency d)
     <= maxActionsPerMinute (actionFrequency d))%Q
  ∧ (delay_min (responseDelay (responsePatterns d))
     <= delay_max (responseDelay (responsePatterns d)))%Q
  ∧ (0 <= ignoreRate (responsePatterns d))%Q
  ∧ (ignoreRate (responsePatterns d) <= 1)%Q
  ∧ minecraftBehaviors d ≠ []
  ∧ discordBehaviors d ≠ [].

End Profiles.

(** ** Results of JavaScript calls *)

(** [new Error(message)]. *)
Record Error : Type := mkError { message : string }.

Inductive Outcome (A : Type) : Type :=
  | Returned (a : A)
  | Thrown (e : Error).
Arguments Returned {A} a.
Arguments Thrown {A} e.

(** The failure the spec calls [AgentNotFound]: both [transitionStatus] and
    [AgentRepository.update] throw an [Error] with this message. *)
Definition AgentNotFound (id : string) : Error :=
  mkError ("Agent " +:+ id +:+ " not found").

(** ** External collaborators *)

(** [minecraft/bot/bot-manager] is not part of the agent module. It is an
    interface here: [getBot] answers whether a bot is registered under the
    identifier (the truthiness of the result is all the agent module
    looks at), and, like [disconnectBot], may throw. [W] is the adapter's
    own state. *)
Class BotManager (W : Type) : Type := {
  createBot : string → string → Z → string → W → (string + string) * W;
  getBot : string → W → Outcome bool;
  disconnectBot : string → W → Outcome unit * W
}.

(** [new Date(s).getTime()] on the ISO strings the module writes; these
    are valid instants, so the result is never [NaN]. *)
Class DateParse : Type := Date_getTime : string → Z.

(** ** The state of the process *)

(** A [NodeJS.Timeout] is identified by a number. *)
Abbreviation Timeout := nat.

(** What [setInterval] holds for a timer: the agent object captured by the
    callback and the period in milliseconds. *)
Record Timer : Type := mkTimer {
  timer_agent : AgentInstance;
  timer_period : Q
}.

(** [agentsStore] and [actionsStore] are the two maps of [repository.ts],
    [activeExecutors] the map of [BehaviorExecutor]; [timers] are the
    intervals that were set and not cleared; [disconnects] records each
    call of [botManager.disconnectBot] in order. *)
Record State (W : Type) : Type := mkState {
  agentsStore : gmap string AgentInstance;
  actionsStore : gmap string (list BehavioralAction);
  activeExecutors : gmap string Timeout;
  timers : gmap Timeout Timer;
  nextTimeout : Timeout;
  world : W;
  disconnects : list string
}.
Arguments mkState {W}.
Arguments agentsStore {W}.
Arguments actionsStore {W}.
Arguments activeExecutors {W}.
Arguments timers {W}.
Arguments nextTimeout {W}.
Arguments world {W}.
Arguments disconnects {W}.

Definition initial_state {W : Type} (w : W) : State W :=
  mkState ∅ ∅ ∅ ∅ 0%nat w [].

Section Accessors.
Context {W : Type}.

Definition with_agentsStore (m : gmap string AgentInstance) (s : State W) :=
  mkState m (actionsStore s) (activeExecutors s) (timers s) (nextTimeout s)
    (world s) (disconnects s).

Definition with_actionsStore (m : gmap string (list BehavioralAction))
    (s : State W) :=
  mkState (agentsStore s) m (activeExecutors s) (timers s) (nextTimeout s)
    (world s) (disconnects s).

Definition with_activeExecutors (m : gmap string Timeout) (s : State W) :=
  mkState (agentsStore s) (actionsStore s) m (timers s) (nextTimeout s)
    (world s) (disconnects s).

Definition with_world (w : W) (s : State W) :=
  mkState (agentsStore s) (actionsStore s) (activeExecutors s) (timers s)
    (nextTimeout s) w (disconnects s).
End Accessors.

(** ** Async computations *)

Definition Async (W A : Type) : Type := State W → Outcome A * State W.

Section Monad.
Context {W : Type}.

Definition ret {A} (a : A) : Async W A := λ s, (Returned a, s).

Definition throw {A} (e : Error) : Async W A := λ s, (Thrown e, s).

Definition bind {A B} (m : Async W A) (k : A → Async W B) : Async W B :=
  λ s, match m s with
       | (Returned a, s') => k a s'
       | (Thrown e, s') => (Thrown e, s')
       end.

(** [try { body } catch (error) { handler }] *)
Definition try_catch {A} (body : Async W A) (handler : Error → Async W A)
    : Async W A :=
  λ s, match body s with
       | (Returned a, s') => (Returned a, s')
       | (Thrown e, s') => handler e s'
       end.

Definition gets {A} (f : State W → A) : Async W A := λ s, (Returned (f s), s).

Definition modify (f : State W → State W) : Async W unit :=
  λ s, (Returned tt, f s).
End Monad.

Notation "'let!' x := m 'in' k" := (bind m (λ x, k))
  (at level 10, x name, m at level 100, k at level 200, only parsing).
Notation "m ;; k" := (bind m (λ _, k))
  (at level 100, k at level 200, right associativity, only parsing).

(** [console.log], [console.warn] and [console.error] change nothing the
    module reads. *)
Definition console {W} (line : string) : Async W unit := ret tt.

(** ** Arrays *)

(** [Array.prototype.slice(0, limit)] for an integer [limit]: a negative
    [limit] counts from the end of the array. *)
Definition Array_slice0 {A} (limit : Z) (l : list A) : list A :=
  if bool_decide (limit < 0)%Z
  then take (Z.to_nat (Z.max (Z.of_nat (length l) + limit) 0)) l
  else take (Z.to_nat limit) l.

(** A JavaScript [Map] iterates in insertion order, which a [gmap] does not
    record. [order] lists the keys of the map in the order they were first
    inserted; [Array.from(m.values())] then reads the values in that
    order. *)
Definition insertion_order {V} (order : list string) (m : gmap string V) : Prop :=
  NoDup order ∧ ∀ k, k ∈ order ↔ is_Some (m !! k).

Definition Map_values {V} (order : list string) (m : gmap string V) : list V :=
  omap (λ k, m !! k) order.

(** A string is truthy unless it is empty. *)
Definition truthy (s : string) : bool := bool_decide (s ≠ "").

(** [Array.prototype.sort(compareFn)] is stable, and [compareFn a b > 0]
    puts [a] after [b]. For a comparator that is a difference of keys the
    result is therefore determined; it is computed here by stable insertion. *)
Section ArraySort.
Context {A : Type} (compareFn : A → A → Z).

Fixpoint sort_insert (x : A) (l : list A) : list A :=
  match l with
  | [] => [x]
  | y :: l' =>
      if bool_decide (compareFn x y ≤ 0)%Z then x :: y :: l'
      else y :: sort_insert x l'
  end.

Definition Array_sort (l : list A) : list A := foldr sort_insert [] l.
End ArraySort.

(** ** repository.ts *)

(** [Partial<AgentInstance>]: a field is overwritten when it is given. *)
Record AgentPatch : Type := mkPatch {
  p_agentId : option string;
  p_profile : option BehavioralProfile;
  p_status : option AgentStatus;
  p_minecraftBotId : option string;
  p_discordUserId : option (option string);
  p_systemPrompt : option string;
  p_spawnedAt : option string;
  p_lastActionAt : option (option string);
  p_actionCount : option Z;
  p_metadata : option (list (string * Q))
}.

(** [{ status: s }] *)
Definition patch_status (s : AgentStatus) : AgentPatch :=
  mkPatch None None (Some s) None None None None None None None.

(** [{ lastActionAt: t, actionCount: n }] *)
Definition patch_stats (t : string) (n : Z) : AgentPatch :=
  mkPatch None None None None None None None (Some (Some t)) (Some n) None.

(** [{ ...agent, ...data }] *)
Definition spread (agent : AgentInstance) (data : AgentPatch) : AgentInstance :=
  {| agentId := default (agentId agent) (p_agentId data);
     profile := default (profile agent) (p_profile data);
     status := default (status agent) (p_status data);
     minecraftBotId := default (minecraftBotId agent) (p_minecraftBotId data);
     discordUserId := default (discordUserId agent) (p_discordUserId data);
     systemPrompt := default (systemPrompt agent) (p_systemPrompt data);
     spawnedAt := default (spawnedAt agent) (p_spawnedAt data);
     lastActionAt := default (lastActionAt agent) (p_lastActionAt data);
     actionCount := default (actionCount agent) (p_actionCount data);
     metadata := default (metadata agent) (p_metadata data) |}.

(** The optional argument of [findAll] and [count]. *)
Record AgentFilters : Type := mkFilters {
  f_status : option string;
  f_profile : option string
}.

(** An agent passes the filters: each filter that is given and truthy
    equals the agent's field. *)
Definition passes (filters : option AgentFilters) (a : AgentInstance) : bool :=
  match filters ≫= f_status with
  | Some st => negb (truthy st) || bool_decide (status_tag (status a) = st)
  | None => true
  end
  && match filters ≫= f_profile with
     | Some pr => negb (truthy pr) || bool_decide (profile_tag (profile a) = pr)
     | None => true
     end.

(** A field of a later patch wins over the same field of an earlier one. *)
Definition later_wins {A} (first second : option A) : option A :=
  match second with
  | Some _ => second
  | None => first
  end.

(** [{ ...first, ...second }] on patches. *)
Definition patch_merge (first second : AgentPatch) : AgentPatch :=
  {| p_agentId := later_wins (p_agentId first) (p_agentId second);
     p_profile := later_wins (p_profile first) (p_profile second);
     p_status := later_wins (p_status first) (p_status second);
     p_minecraftBotId := later_wins (p_minecraftBotId first) (p_minecraftBotId second);
     p_discordUserId := later_wins (p_discordUserId first) (p_discordUserId second);
     p_systemPrompt := later_wins (p_systemPrompt first) (p_systemPrompt second);
     p_spawnedAt := later_wins (p_spawnedAt first) (p_spawnedAt second);
     p_lastActionAt := later_wins (p_lastActionAt first) (p_lastActionAt second);
     p_actionCount := later_wins (p_actionCount first) (p_actionCount second);
     p_metadata := later_wins (p_metadata first) (p_metadata second) |}.

Module AgentRepository.
Section Repository.
Context {W : Type}.

Definition create (agent : AgentInstance) : Async W AgentInstance :=
  modify (λ s, with_agentsStore (<[agentId agent := agent]> (agentsStore s)) s) ;;
  modify (λ s, with_actionsStore (<[agentId agent := []]> (actionsStore s)) s) ;;
  ret agent.

Definition findById (id : string) : Async W (option AgentInstance) :=
  gets (λ s, agentsStore s !! id).

Definition update (id : string) (data : AgentPatch) : Async W unit :=
  let! agent := gets (λ s, agentsStore s !! id) in
  match agent with
  | None => throw (AgentNotFound id)
  | Some agent =>
      let updated := spread agent data in
      modify (λ s, with_agentsStore (<[id := updated]> (agentsStore s)) s)
  end.

Definition createAction (action : BehavioralAction) : Async W unit :=
  let! actions := gets (λ s, default [] (actionsStore s !! action_agentId action)) in
  let actions := actions ++ [action] in
  modify (λ s,
    with_actionsStore (<[action_agentId action := actions]> (actionsStore s)) s).

(** The comparator of [findActions]. *)
Definition newest_first `{DateParse} (a b : BehavioralAction) : Z :=
  (Date_getTime (timestamp b) - Date_getTime (timestamp a))%Z.

(** [sort] works in place: when the identifier has an array in
    [actionsStore], that array is left sorted. [limit] defaults to 100. *)
Definition findActions `{DateParse} (id : string) (limit : option Z)
    : Async W (list BehavioralAction) :=
  let limit := default 100%Z limit in
  let! stored := gets (λ s, actionsStore s !! id) in
  match stored with
  | Some actions =>
      let sorted := Array_sort newest_first actions in
      modify (λ s, with_actionsStore (<[id := sorted]> (actionsStore s)) s) ;;
      ret (Array_slice0 limit sorted)
  | None => ret (Array_slice0 limit (Array_sort newest_first []))
  end.

(** The comparator of [findAll]. *)
Definition newest_spawned_first `{DateParse} (a b : AgentInstance) : Z :=
  (Date_getTime (spawnedAt b) - Date_getTime (spawnedAt a))%Z.

(** [filters?.status] and [filters?.profile]: a filter applies when it is
    given and truthy. [order] is the insertion order of [agentsStore]. *)
Definition findAll `{DateParse} (order : list string)
    (filters : option AgentFilters) : Async W (list AgentInstance) :=
  let! agents := gets (λ s, Map_values order (agentsStore s)) in
  let agents :=
    match filters ≫= f_status with
    | Some st =>
        if truthy st
        then filter (λ a, status_tag (status a) = st) agents else agents
    | None => agents
    end in
  let agents :=
    match filters ≫= f_profile with
    | Some pr =>
        if truthy pr
        then filter (λ a, profile_tag (profile a) = pr) agents else agents
    | None => agents
    end in
  ret (Array_sort newest_spawned_first agents).

Definition count `{DateParse} (order : list string)
    (filters : option AgentFilters) : Async W nat :=
  let! agents := findAll order filters in
  ret (length agents).

Definition exists_ (id : string) : Async W bool :=
  gets (λ s, bool_decide (is_Some (agentsStore s !! id))).

Definition delete (id : string) : Async W unit :=
  modify (λ s, with_agentsStore (delete id (agentsStore s)) s) ;;
  modify (λ s, with_actionsStore (delete id (actionsStore s)) s).
End Repository.
End AgentRepository.

(** ** Node timers *)

Section NodeTimers.
Context {W : Type}.

(** [setInterval(callback, period)]: a fresh handle; the callback of the
    executor is determined by the agent it captures. *)
Definition setInterval (agent : AgentInstance) (period : Q) : Async W Timeout :=
  λ s, let h := nextTimeout s in
       (Returned h,
        mkState (agentsStore s) (actionsStore s) (activeExecutors s)
          (<[h := mkTimer agent period]> (timers s)) (S h)
          (world s) (disconnects s)).

Definition clearInterval (h : Timeout) : Async W unit :=
  modify (λ s,
    mkState (agentsStore s) (actionsStore s) (activeExecutors s)
      (delete h (timers s)) (nextTimeout s) (world s) (disconnects s)).
End NodeTimers.

(** ** orchestrator/behavior-executor.ts *)

(** What one firing of an interval draws from outside: the value of
    [Math.random()] used by [selectBehavior], the generated action
    identifier, and the two readings of the clock. *)
Record TickInput : Type := mkTick {
  tick_random : Q;
  tick_actionId : string;
  tick_timestamp : string;
  tick_now : string
}.

Module BehaviorExecutor.

(** The [case] labels of [executeMinecraftBehavior]. *)
Definition known_behaviors : list string := [
  "gather-requested-resources"; "assist-with-tasks"; "share-items-freely";
  "follow-instructions"; "coordinate-with-team";
  "collect-resources-selfishly"; "avoid-helping-others";
  "work-on-own-tasks"; "refuse-to-share";
  "start-then-change-direction"; "go-to-wrong-locations";
  "collect-wrong-resources"; "abandon-half-built-structures";
  "aggressive-resource-collection"; "claim-mining-areas";
  "store-resources-privately"; "race-for-limited-items";
  "start-tasks-enthusiastically"; "abandon-incomplete-builds";
  "switch-tasks-frequently"; "wander-off-mid-task";
  "frequent-position-announcements"; "constant-inventory-updates";
  "over-document-actions"; "interrupt-others-work" ].

(** Division of rationals by zero is 0 where JavaScript gives [Infinity];
    the two agree whenever the average rate is not zero. *)
Definition calculateInterval (frequency : ActionFrequency) : Q :=
  let avgActionsPerMinute :=
    ((minActionsPerMinute frequency + maxActionsPerMinute frequency) / 2)%Q in
  let intervalMs := ((60 * 1000) / avgActionsPerMinute)%Q in
  intervalMs.

(** [behaviors[Math.floor(Math.random() * behaviors.length)]], with
    [Math.random()] in [0, 1); an index out of range yields [undefined],
    which prints as that word. *)
Definition selectBehavior (random : Q) (profile : ProfileDefinition) : string :=
  let behaviors := minecraftBehaviors profile in
  default "undefined"
    (behaviors !! Z.to_nat (Qfloor (random * inject_Z (Z.of_nat (length behaviors))))).

Section Executor.
Context {W : Type} {bots : BotManager W}.

Definition isRunning (id : string) : Async W bool :=
  gets (λ s, bool_decide (is_Some (activeExecutors s !! id))).

Definition initialize (agent : AgentInstance) : Async W unit :=
  let profile := Profiles.getProfile (profile agent) in
  let! interval := setInterval agent (calculateInterval (actionFrequency profile)) in
  modify (λ s,
    with_activeExecutors (<[agentId agent := interval]> (activeExecutors s)) s) ;;
  console "[BehaviorExecutor] Started".

Definition stop (id : string) : Async W unit :=
  let! interval := gets (λ s, activeExecutors s !! id) in
  match interval with
  | Some interval =>
      clearInterval interval ;;
      modify (λ s, with_activeExecutors (delete id (activeExecutors s)) s) ;;
      console "[BehaviorExecutor] Stopped"
  | None => ret tt
  end.

Definition executeMinecraftBehavior (behavior : string) (agent : AgentInstance)
    : Async W bool :=
  if bool_decide (behavior ∈ known_behaviors)
  then console "Would ..." ;; ret true
  else console "Unknown behavior" ;; ret false.

Definition logAction (inp : TickInput) (id : string) (behavior : string)
    (success : bool) : Async W unit :=
  let action := {|
    actionId := tick_actionId inp;
    action_agentId := id;
    actionType := behavior;
    timestamp := tick_timestamp inp;
    success := success;
    notes := Some ("Executed " +:+ behavior) |} in
  AgentRepository.createAction action.

Definition call_getBot (botId : string) : Async W bool :=
  λ s, (getBot botId (world s), s).

Definition executeBehavior (inp : TickInput) (agent : AgentInstance)
    : Async W unit :=
  let profile := Profiles.getProfile (profile agent) in
  let! bot := call_getBot (minecraftBotId agent) in
  if negb bot then console "Bot not found" else
  let! currentAgent := AgentRepository.findById (agentId agent) in
  match currentAgent with
  | None => ret tt
  | Some currentAgent =>
      if bool_decide (status currentAgent ≠ active) then ret tt else
      let behavior := selectBehavior (tick_random inp) profile in
      let! result := executeMinecraftBehavior behavior currentAgent in
      logAction inp (agentId currentAgent) behavior result ;;
      AgentRepository.update (agentId currentAgent)
        (patch_stats (tick_now inp) (actionCount currentAgent + 1))
  end.

(** One firing of the interval [h]: the callback given to [setInterval]
    by [initialize]; a handle that was cleared does not fire. *)
Definition tick (h : Timeout) (inp : TickInput) : Async W unit :=
  let! timer := gets (λ s, timers s !! h) in
  match timer with
  | None => ret tt
  | Some timer =>
      try_catch (executeBehavior inp (timer_agent timer))
        (λ _, console "[BehaviorExecutor] Error")
  end.
End Executor.
End BehaviorExecutor.

(** ** orchestrator/lifecycle-manager.ts *)

(** The result of [getHealthStatus]. *)
Record HealthStatus : Type := mkHealth {
  healthy : bool;
  issues : list string
}.

Module LifecycleManager.
Section Lifecycle.
Context {W : Type} {bots : BotManager W}.

(** [botManager.disconnectBot], each call being recorded. *)
Definition call_disconnectBot (botId : string) : Async W unit :=
  λ s, let '(r, w) := disconnectBot botId (world s) in
       (r, mkState (agentsStore s) (actionsStore s) (activeExecutors s)
             (timers s) (nextTimeout s) w (disconnects s ++ [botId])).

Definition handlePause (id : string) : Async W unit :=
  BehaviorExecutor.stop id ;;
  console "[LifecycleManager] Paused".

Definition handleResume (agent : AgentInstance) : Async W unit :=
  let! running := BehaviorExecutor.isRunning (agentId agent) in
  if negb running then
    BehaviorExecutor.initialize agent ;;
    console "[LifecycleManager] Resumed"
  else ret tt.

Definition handleTermination (agent : AgentInstance) : Async W unit :=
  BehaviorExecutor.stop (agentId agent) ;;
  try_catch
    (let! bot := BehaviorExecutor.call_getBot (minecraftBotId agent) in
     if bot then call_disconnectBot (minecraftBotId agent) else ret tt)
    (λ _, console "[LifecycleManager] Error disconnecting bot") ;;
  console "[LifecycleManager] Terminated".

Definition handleError (agent : AgentInstance) : Async W unit :=
  BehaviorExecutor.stop (agentId agent) ;;
  console "[LifecycleManager] entered error state".

Definition transitionStatus (id : string) (newStatus : AgentStatus)
    : Async W unit :=
  let! agent := AgentRepository.findById id in
  match agent with
  | None => throw (AgentNotFound id)
  | Some agent =>
      console "[LifecycleManager] transition" ;;
      AgentRepository.update id (patch_status newStatus) ;;
      match newStatus with
      | paused => handlePause id
      | active => handleResume agent
      | terminated => handleTermination agent
      | error => handleError agent
      | _ => ret tt
      end
  end.
(** [for (const agent of agents) await this.transitionStatus(...)]: the
    first transition that throws ends the loop. *)
Fixpoint terminate_each (agents : list AgentInstance) : Async W unit :=
  match agents with
  | [] => ret tt
  | agent :: rest =>
      transitionStatus (agentId agent) terminated ;;
      terminate_each rest
  end.

(** [order] is the insertion order of [agentsStore]. *)
Definition cleanupAll `{DateParse} (order : list string) : Async W unit :=
  let! agents :=
    AgentRepository.findAll order (Some (mkFilters (Some "active") None)) in
  terminate_each agents ;;
  console "[LifecycleManager] Cleaned up".

(** [now] is [new Date().getTime()] at the time of the check. A
    [lastActionAt] that is [null] or empty is skipped. *)
Definition getHealthStatus `{DateParse} (now : Z) (id : string)
    : Async W HealthStatus :=
  let! agent := AgentRepository.findById id in
  match agent with
  | None => ret {| healthy := false; issues := ["Agent not found"] |}
  | Some agent =>
      let issues := [] in
      let! bot := BehaviorExecutor.call_getBot (minecraftBotId agent) in
      let issues :=
        if negb bot then issues ++ ["Minecraft bot not found"] else issues in
      let! running := BehaviorExecutor.isRunning id in
      let issues :=
        if bool_decide (status agent = active) && negb running
        then issues ++ ["Behavior executor not running"] else issues in
      let issues :=
        match lastActionAt agent with
        | Some last =>
            if truthy last then
              let minutesSinceLastAction :=
                (inject_Z (now - Date_getTime last) / (1000 * 60))%Q in
              if negb (Qle_bool minutesSinceLastAction 5)
                 && bool_decide (status agent = active)
              then issues ++ ["No actions in the last 5 minutes"] else issues
            else issues
        | None => issues
        end in
      ret {| healthy := bool_decide (length issues = 0%nat); issues := issues |}
  end.
End Lifecycle.
End LifecycleManager.

(** ** service.ts *)

Record BotConfig : Type := mkBotConfig {
  username : string;
  host : string;
  port : Z;
  version : string
}.

Record AgentConfig : Type := mkConfig {
  cfg_profile : BehavioralProfile;
  cfg_minecraftBot : BotConfig;
  cfg_behaviorIntensity : Q
}.

(** What a creation request draws from outside: the generated identifier,
    the text the prompt composer returns, and the reading of the clock. *)
Record SpawnInput : Type := mkSpawn {
  spawn_agentId : string;
  spawn_systemPrompt : string;
  spawn_spawnedAt : string
}.

Module AgentService.
Section Service.
Context {W : Type} {bots : BotManager W}.

Definition call_createBot (c : BotConfig) : Async W (string + string) :=
  λ s, let '(r, w) :=
         createBot (username c) (host c) (port c) (version c) (world s) in
       (Returned r, with_world w s).

(** Modelled from the spec: [service.ts] is not among the sources. The
    spec (section 2) has a creation request open an environment
    connection, write an initial agent record to the State Store and hand
    the agent to the Behavior Scheduler; the order of the steps and the
    statuses ([spawning], then [active]) are those of the implementation
    plan. The status field of the object the timer captures is never
    read by the callback and is left as written at creation. *)
Definition createAgent (config : AgentConfig) (inp : SpawnInput)
    : Async W (AgentInstance + string) :=
  let! botResult := call_createBot (cfg_minecraftBot config) in
  match botResult with
  | inr message => ret (inr ("Failed to spawn Minecraft bot: " +:+ message))
  | inl botId =>
      let agent := {|
        agentId := spawn_agentId inp;
        profile := cfg_profile config;
        status := spawning;
        minecraftBotId := botId;
        discordUserId := None;
        systemPrompt := spawn_systemPrompt inp;
        spawnedAt := spawn_spawnedAt inp;
        lastActionAt := None;
        actionCount := 0;
        metadata := [("behaviorIntensity", cfg_behaviorIntensity config)] |} in
      AgentRepository.create agent ;;
      BehaviorExecutor.initialize agent ;;
      AgentRepository.update (agentId agent) (patch_status active) ;;
      ret (inl (spread agent (patch_status active)))
  end.
End Service.
End AgentService.

(** ** Operations of the core and the states they reach *)

(** The operations a caller of the core, or the event loop, can perform:
    spawning an agent, the four lifecycle transitions (pause, resume,
    terminate, error), and one firing of a timer. Between the status write
    of a transition and its effect on the scheduler the code only awaits
    calls that settle at once, so no request and no timer runs in between:
    an operation is one step. *)
Inductive Operation : Type :=
  | OpSpawn (config : AgentConfig) (inp : SpawnInput)
  | OpPause (id : string)
  | OpResume (id : string)
  | OpTerminate (id : string)
  | OpError (id : string)
  | OpTick (h : Timeout) (inp : TickInput).

Section Operations.
Context {W : Type} {bots : BotManager W}.

Definition discard {A} (m : Async W A) : Async W unit := m ;; ret tt.

Definition perform (op : Operation) : Async W unit :=
  match op with
  | OpSpawn config inp => discard (AgentService.createAgent config inp)
  | OpPause id => LifecycleManager.transitionStatus id paused
  | OpResume id => LifecycleManager.transitionStatus id active
  | OpTerminate id => LifecycleManager.transitionStatus id terminated
  | OpError id => LifecycleManager.transitionStatus id error
  | OpTick h inp => BehaviorExecutor.tick h inp
  end.

(** The state after an operation, whether it returned or threw. *)
Definition after (op : Operation) (s : State W) : State W := (perform op s).2.

Definition after_all (ops : list Operation) (s : State W) : State W :=
  foldl (λ s op, after op s) s ops.

Inductive reachable : State W → Prop :=
  | reachable_init (w : W) : reachable (initial_state w)
  | reachable_step (op : Operation) (s : State W) :
      reachable s → reachable (after op s).

(** The agent has a running loop: an entry in [activeExecutors]. *)
Definition has_loop (id : string) (s : State W) : Prop :=
  is_Some (activeExecutors s !! id).

(** The stored status of the agent, if it has a record. *)
Definition stored_status (id : string) (s : State W) : option AgentStatus :=
  status <$> agentsStore s !! id.
End Operations.

(** ** Views and predicates used in the statements *)

Section Views.
Context {W : Type}.

(** A computation leaves a view of the state as it was. *)
Definition preserves {B A} (view : State W → B) (m : Async W A) : Prop :=
  ∀ s, view (m s).2 = view s.

(** The part of the state the scheduler owns. *)
Definition scheduler_view (s : State W)
    : gmap Timeout Timer * gmap string Timeout * Timeout :=
  (timers s, activeExecutors s, nextTimeout s).

(** The state once [transitionStatus] has written the new status. *)
Definition status_written (id : string) (agent : AgentInstance)
    (newStatus : AgentStatus) (s : State W) : State W :=
  with_agentsStore (<[id := spread agent (patch_status newStatus)]> (agentsStore s)) s.

(** Records are stored under their own identifier. *)
Definition keyed (s : State W) : Prop :=
  ∀ id a, agentsStore s !! id = Some a → agentId a = id.

(** An agent has a running loop exactly when its stored status is
    [active]. *)
Definition loops_follow_status (s : State W) : Prop :=
  ∀ id, has_loop id s ↔ stored_status id s = Some active.

Definition consistent (s : State W) : Prop := keyed s ∧ loops_follow_status s.

(** What [consistent] reads of a state. *)
Definition identity_view (s : State W)
    : gmap string (string * AgentStatus) * gmap string Timeout :=
  ((λ a, (agentId a, status a)) <$> agentsStore s, activeExecutors s).

(** Every timer that is set is the one registered for the agent it
    captures, and every registered handle is a timer that is set. *)
Definition timers_registered (s : State W) : Prop :=
  (∀ h t, timers s !! h = Some t →
     (h < nextTimeout s)%nat
     ∧ activeExecutors s !! agentId (timer_agent t) = Some h)
  ∧ (∀ id h, activeExecutors s !! id = Some h →
     ∃ t, timers s !! h = Some t ∧ agentId (timer_agent t) = id).
End Views.

Section FreshSpawns.
Context {W : Type} {bots : BotManager W}.

(** A spawn draws an identifier that has no record yet
    ([agent-<clock>-<random>] in the implementation plan). *)
Definition fresh_identifier (op : Operation) (s : State W) : Prop :=
  match op with
  | OpSpawn _ inp => agentsStore s !! spawn_agentId inp = None
  | _ => True
  end.

Inductive reachable_fresh : State W → Prop :=
  | reachable_fresh_init (w : W) : reachable_fresh (initial_state w)
  | reachable_fresh_step (op : Operation) (s : State W) :
      reachable_fresh s → fresh_identifier op s → reachable_fresh (after op s).

(** Every spawn of the run draws a fresh identifier. *)
Fixpoint fresh_run (ops : list Operation) (s : State W) : Prop :=
  match ops with
  | [] => True
  | op :: ops => fresh_identifier op s ∧ fresh_run ops (after op s)
  end.
End FreshSpawns.

(** [later] is the record [earlier] at a later time: the same agent, with
    a counter that is not smaller. *)
Definition same_agent_later (earlier later : AgentInstance) : Prop :=
  agentId later = agentId earlier
  ∧ profile later = profile earlier
  ∧ minecraftBotId later = minecraftBotId earlier
  ∧ systemPrompt later = systemPrompt earlier
  ∧ spawnedAt later = spawnedAt earlier
  ∧ (actionCount earlier ≤ actionCount later)%Z.

(** [a] may stand before [b]. *)
Definition in_order {A} (compareFn : A → A → Z) (a b : A) : Prop :=
  (compareFn a b ≤ 0)%Z.

(** [a] is at least as recent as [b]. *)
Definition not_older `{!DateParse} (a b : BehavioralAction) : Prop :=
  (Date_getTime (timestamp b) ≤ Date_getTime (timestamp a))%Z.

(** ** Concrete collaborators for the examples *)

Module Examples.

(** A bot manager that keeps the set of connected bots: connecting
    registers the bot under [bot-<username>], disconnecting removes it. *)
Global Instance set_bots : BotManager (gset string) := {|
  createBot u _ _ _ w := (inl ("bot-" +:+ u), {[ "bot-" +:+ u ]} ∪ w);
  getBot id w := Returned (bool_decide (id ∈ w));
  disconnectBot id w := (Returned tt, w ∖ {[ id ]})
|}.

(** The digits of an ISO-8601 instant in UTC, read as one number. On the
    fixed-width strings [toISOString] produces this orders instants as
    [getTime] does, and [findActions] depends on the order only. *)
Fixpoint digits_value (acc : Z) (s : string) : Z :=
  match s with
  | EmptyString => acc
  | String c s' =>
      let n := Ascii.nat_of_ascii c in
      if bool_decide (48 ≤ n ≤ 57)%nat
      then digits_value (acc * 10 + Z.of_nat (n - 48)) s'
      else digits_value acc s'
  end.

Global Instance iso_digits : DateParse := digits_value 0.

Definition bot_config : BotConfig := mkBotConfig "alice" "localhost" 25565 "1.21.10".

Definition agentA (st : AgentStatus) : AgentInstance := {|
  agentId := "agent-A";
  profile := cooperative;
  status := st;
  minecraftBotId := "bot-alice";
  discordUserId := None;
  systemPrompt := "prompt";
  spawnedAt := "2026-02-07T23:24:03.000Z";
  lastActionAt := None;
  actionCount := 0;
  metadata := [("behaviorIntensity", 1 # 2)] |}.

(** A store holding only [agentA] with the given status, no running
    loop, and the given connected bots. *)
Definition store_with (st : AgentStatus) (bots : gset string) : State (gset string) :=
  mkState {[ "agent-A" := agentA st ]} {[ "agent-A" := [] ]} ∅ ∅ 0%nat bots [].

Definition entry (id ts : string) (owner : string) : BehavioralAction := {|
  actionId := id;
  action_agentId := owner;
  actionType := "assist-with-tasks";
  timestamp := ts;
  success := true;
  notes := Some "Executed assist-with-tasks" |}.

(** A bot manager whose bots never go away and whose [disconnectBot]
    always throws. *)
Definition broken_bots : BotManager unit := {|
  createBot u _ _ _ w := (inl ("bot-" +:+ u), w);
  getBot _ _ := Returned true;
  disconnectBot _ w := (Thrown (mkError "connection reset"), w)
|}.

Definition config_alice : AgentConfig := mkConfig cooperative bot_config (1 # 2).

Definition spawn_A : SpawnInput :=
  mkSpawn "agent-A" "prompt" "2026-02-07T23:24:03.000Z".

Definition tick_1 : TickInput :=
  mkTick (1 # 2) "action-1" "2026-02-07T23:24:13.000Z" "2026-02-07T23:24:13.001Z".

(** Spawn, one firing, pause, resume, terminate. *)
Definition scenario : list Operation :=
  [OpSpawn config_alice spawn_A; OpTick 0%nat tick_1; OpPause "agent-A";
   OpResume "agent-A"; OpTerminate "agent-A"].

(** [agentA] paused, with two log entries stored oldest first. *)
Definition store_with_log : State (gset string) :=
  mkState {[ "agent-A" := agentA paused ]}
    {[ "agent-A" := [entry "action-1" "2026-02-07T23:24:13.000Z" "agent-A";
                     entry "action-2" "2026-02-07T23:24:23.000Z" "agent-A"] ]}
    ∅ ∅ 0%nat ∅ [].

End Examples.

Module MoreExamples.
Import Examples.

Definition config_bob : AgentConfig :=
  mkConfig confuser (mkBotConfig "bob" "localhost" 25565 "1.21.10") (7 # 10).

Definition spawn_B : SpawnInput :=
  mkSpawn "agent-B" "prompt" "2026-02-07T23:24:04.000Z".

(** Two agents spawned one after the other, both with a running loop. *)
Definition two_agents : State (gset string) :=
  after_all [OpSpawn config_alice spawn_A; OpSpawn config_bob spawn_B]
    (initial_state ∅).

(** One agent spawned, its loop running under handle 0. *)
Definition one_agent : State (gset string) :=
  after (OpSpawn config_alice spawn_A) (initial_state ∅).

(** [store_with_log] with a third entry that has the instant of the
    first. *)
Definition store_with_ties : State (gset string) :=
  (AgentRepository.createAction
     (entry "action-3" "2026-02-07T23:24:13.000Z" "agent-A") store_with_log).2.

End MoreExamples.

(** * Properties *)

(** ** Running async code symbolically *)

Ltac unfold_async :=
  unfold LifecycleManager.transitionStatus, LifecycleManager.handlePause,
    LifecycleManager.handleResume, LifecycleManager.handleTermination,
    LifecycleManager.handleError, LifecycleManager.call_disconnectBot,
    BehaviorExecutor.initialize, BehaviorExecutor.stop,
    BehaviorExecutor.isRunning, BehaviorExecutor.call_getBot,
    AgentRepository.create, AgentRepository.findById, AgentRepository.update,
    AgentRepository.createAction, AgentRepository.delete,
    setInterval, clearInterval, console,
    try_catch, bind, gets, modify, ret, throw in *.

Section StateLemmas.
Context {W : Type} {bots : BotManager W}.

Lemma stop_returns (id : string) (s : State W) :
  (BehaviorExecutor.stop id s).1 = Returned tt.
Proof. unfold_async. simpl. by destruct (activeExecutors s !! id). Qed.

Lemma stop_agentsStore (id : string) (s : State W) :
  agentsStore (BehaviorExecutor.stop id s).2 = agentsStore s.
Proof. unfold_async. simpl. by destruct (activeExecutors s !! id). Qed.

Lemma stop_activeExecutors (id : string) (s : State W) :
  activeExecutors (BehaviorExecutor.stop id s).2 = delete id (activeExecutors s).
Proof.
  unfold_async. simpl. destruct (activeExecutors s !! id) eqn:E; simpl; [done|].
  by rewrite delete_id.
Qed.

End StateLemmas.

(** ** Frame rules: what a computation leaves alone *)

Section Frame.
Context {W B : Type} (view : State W → B).

Lemma preserves_bind {A C} (m : Async W A) (k : A → Async W C) :
  preserves view m → (∀ a, preserves view (k a)) → preserves view (bind m k).
Proof.
  intros Hm Hk s. unfold bind. specialize (Hm s).
  destruct (m s) as [[a|e] s']; simpl in *; [|done].
  by rewrite Hk.
Qed.

Lemma preserves_try_catch {A} (body : Async W A) (handler : Error → Async W A) :
  preserves view body → (∀ e, preserves view (handler e)) →
  preserves view (try_catch body handler).
Proof.
  intros Hm Hk s. unfold try_catch. specialize (Hm s).
  destruct (body s) as [[a|e] s']; simpl in *; [done|].
  by rewrite Hk.
Qed.
End Frame.

(** ** Profile registry *)

(** C9. For each of the six profile identifiers, [getProfile] returns the
    definition registered under that identifier, and the definition has
    [minActionsPerMinute <= maxActionsPerMinute],
    [responseDelay.min <= responseDelay.max], [0 <= ignoreRate <= 1] and
    non-empty [minecraftBehaviors] and [discordBehaviors]. *)
Theorem C9_registry_profiles_valid (p : BehavioralProfile) :
  p ∈ all_profile_ids
  ∧ name (Profiles.getProfile p) = p
  ∧ Profiles.profile_valid (Profiles.getProfile p).
Proof.
  split; [destruct p; set_solver|].
  split; [by destruct p|].
  destruct p; unfold Profiles.profile_valid; simpl; repeat split;
    solve [by vm_compute | discriminate].
Qed.

(** ** Tick period *)

Section Period.
Context {W : Type} {bots : BotManager W}.

Lemma initialize_timer (agent : AgentInstance) (s : State W) :
  let s' := (BehaviorExecutor.initialize agent s).2 in
  activeExecutors s' !! agentId agent = Some (nextTimeout s)
  ∧ timers s' !! nextTimeout s =
      Some (mkTimer agent
              (BehaviorExecutor.calculateInterval
                 (actionFrequency (Profiles.getProfile (profile agent))))).
Proof. unfold_async. simpl. by rewrite !lookup_insert_eq. Qed.

Lemma createAction_frame (a : BehavioralAction) :
  preserves (W:=W) scheduler_view (AgentRepository.createAction a).
Proof. by intros s. Qed.

Lemma update_frame (id : string) (d : AgentPatch) :
  preserves (W:=W) scheduler_view (AgentRepository.update id d).
Proof. intros s. unfold_async. simpl. by destruct (agentsStore s !! id). Qed.

(** A firing only writes through [createAction] and through [update]
    with a statistics patch: what these two preserve, it preserves. *)
Lemma tick_preserves {B} (view : State W → B) (h : Timeout) (inp : TickInput) :
  (∀ a, preserves view (AgentRepository.createAction a)) →
  (∀ id t n, preserves view (AgentRepository.update id (patch_stats t n))) →
  preserves view (BehaviorExecutor.tick h inp).
Proof.
  intros Hcreate Hupdate. unfold BehaviorExecutor.tick.
  apply preserves_bind; [done|]. intros [t|]; [|done].
  apply preserves_try_catch; [|done].
  unfold BehaviorExecutor.executeBehavior.
  apply preserves_bind; [done|]. intros [|]; simpl; [|done].
  apply preserves_bind; [done|]. intros [cur|]; [|done].
  case_bool_decide; [done|].
  apply preserves_bind.
  { unfold BehaviorExecutor.executeMinecraftBehavior. by case_bool_decide. }
  intros result. apply preserves_bind; [apply Hcreate|].
  intros _. apply Hupdate.
Qed.

Lemma tick_frame (h : Timeout) (inp : TickInput) :
  preserves (W:=W) scheduler_view (BehaviorExecutor.tick h inp).
Proof.
  apply tick_preserves; intros; [apply createAction_frame|apply update_frame].
Qed.

(** C6. For a frequency range with [0 < min <= max], the period
    [calculateInterval] returns is [60000 / ((min + max) / 2)]
    milliseconds (so period times average rate is one minute). It is
    fixed when the loop is started: [initialize] gives it to
    [setInterval] for the timer it registers under the agent, and a
    firing of any timer leaves every timer, and the executor map, as they
    were. For min 3 and max 9 the period is 10000 ms. *)
Theorem C6_fixed_tick_period (f : ActionFrequency) :
  (0 < minActionsPerMinute f)%Q →
  (minActionsPerMinute f <= maxActionsPerMinute f)%Q →
  let avg := ((minActionsPerMinute f + maxActionsPerMinute f) / 2)%Q in
  (BehaviorExecutor.calculateInterval f == 60000 / avg)%Q
  ∧ (BehaviorExecutor.calculateInterval f * avg == 60000)%Q
  ∧ (∀ (agent : AgentInstance) (s : State W),
       actionFrequency (Profiles.getProfile (profile agent)) = f →
       let s' := (BehaviorExecutor.initialize agent s).2 in
       ∃ h, activeExecutors s' !! agentId agent = Some h
            ∧ timer_period <$> timers s' !! h
              = Some (BehaviorExecutor.calculateInterval f))
  ∧ (∀ (h : Timeout) (inp : TickInput) (s : State W),
       timers (BehaviorExecutor.tick h inp s).2 = timers s
       ∧ activeExecutors (BehaviorExecutor.tick h inp s).2 = activeExecutors s)
  ∧ (BehaviorExecutor.calculateInterval (mkFrequency 3 9) == 10000)%Q.
Proof.
  intros Hmin Hle avg.
  assert (Havg : (0 < avg)%Q).
  { unfold avg. apply Qlt_shift_div_l; [done|]. rewrite Qmult_0_l.
    apply Qlt_le_trans with (minActionsPerMinute f + 0)%Q.
    - by rewrite Qplus_0_r.
    - apply Qplus_le_r. apply Qle_trans with (minActionsPerMinute f); [|done].
      by apply Qlt_le_weak. }
  split; [|split; [|split; [|split]]].
  - unfold BehaviorExecutor.calculateInterval. fold avg. reflexivity.
  - unfold BehaviorExecutor.calculateInterval. fold avg.
    rewrite Qmult_comm. transitivity (60 * 1000)%Q; [|reflexivity].
    apply Qmult_div_r. intros Hz. rewrite Hz in Havg.
    by apply Qlt_irrefl in Havg.
  - intros agent s Hf s'. exists (nextTimeout s).
    destruct (initialize_timer agent s) as [He Ht]. fold s' in He, Ht.
    split; [done|]. rewrite Ht. simpl. by rewrite Hf.
  - intros h inp s. by injection (tick_frame h inp s).
  - reflexivity.
Qed.
End Period.

(** ** Lifecycle transitions *)

Section Transitions.
Context {W : Type} {bots : BotManager W}.

Lemma transitionStatus_missing (s : State W) (id : string)
    (newStatus : AgentStatus) :
  agentsStore s !! id = None →
  LifecycleManager.transitionStatus id newStatus s
  = (Thrown (AgentNotFound id), s).
Proof. intros Hnone. unfold_async. simpl. by rewrite Hnone. Qed.

(** C7. A transition requested for an identifier with no record in the
    store throws the not-found error whatever the requested status, and
    the state is left exactly as it was: no status is written, no timer
    is set or cleared, and the bot manager is not called. *)
Theorem C7_unknown_agent_not_found (s : State W) (id : string)
    (newStatus : AgentStatus) :
  agentsStore s !! id = None →
  LifecycleManager.transitionStatus id newStatus s
  = (Thrown (AgentNotFound id), s).
Proof. apply transitionStatus_missing. Qed.

Lemma transitionStatus_found (s : State W) (id : string) (agent : AgentInstance)
    (newStatus : AgentStatus) :
  agentsStore s !! id = Some agent →
  LifecycleManager.transitionStatus id newStatus s
  = match newStatus with
    | paused => LifecycleManager.handlePause id
    | active => LifecycleManager.handleResume agent
    | terminated => LifecycleManager.handleTermination agent
    | error => LifecycleManager.handleError agent
    | _ => ret tt
    end (status_written id agent newStatus s).
Proof.
  intros Hsome. unfold LifecycleManager.transitionStatus.
  unfold bind at 1. unfold AgentRepository.findById, gets at 1. rewrite Hsome.
  unfold bind at 1. unfold console at 1, ret at 1.
  unfold bind at 1. unfold AgentRepository.update.
  unfold bind at 1, gets at 1. rewrite Hsome. reflexivity.
Qed.

Lemma handleTermination_returns (agent : AgentInstance) (s : State W) :
  (LifecycleManager.handleTermination agent s).1 = Returned tt.
Proof.
  unfold_async. simpl.
  destruct (activeExecutors s !! agentId agent); simpl;
    destruct (getBot _ _) as [[]|]; simpl; try done;
    by destruct (disconnectBot _ _) as [[[]|]].
Qed.

Lemma handleTermination_stores (agent : AgentInstance) (s : State W) :
  let s' := (LifecycleManager.handleTermination agent s).2 in
  agentsStore s' = agentsStore s
  ∧ actionsStore s' = actionsStore s
  ∧ activeExecutors s' = delete (agentId agent) (activeExecutors s).
Proof.
  unfold_async. simpl.
  destruct (activeExecutors s !! agentId agent) eqn:E; simpl;
    destruct (getBot _ _) as [[]|]; simpl;
    try destruct (disconnectBot _ _) as [[[]|]]; simpl;
    first [done | by rewrite delete_id].
Qed.

Lemma handleResume_returns (agent : AgentInstance) (s : State W) :
  (LifecycleManager.handleResume agent s).1 = Returned tt
  ∧ is_Some (activeExecutors (LifecycleManager.handleResume agent s).2
               !! agentId agent)
  ∧ agentsStore (LifecycleManager.handleResume agent s).2 = agentsStore s.
Proof.
  unfold_async. simpl. case_bool_decide as Hrun; simpl.
  - done.
  - rewrite lookup_insert_eq. eauto.
Qed.

(** C5. For an agent that has a record, the transition to [terminated]
    returns normally for every bot manager, also one whose [getBot] or
    [disconnectBot] throws: the error is caught in [handleTermination].
    Afterwards the stored record is the old one with status [terminated],
    and the agent has no entry in the executor map. *)
Theorem C5_termination_never_throws (s : State W) (id : string)
    (agent : AgentInstance) :
  agentsStore s !! id = Some agent →
  let r := LifecycleManager.transitionStatus id terminated s in
  r.1 = Returned tt
  ∧ agentsStore r.2 !! id = Some (spread agent (patch_status terminated))
  ∧ stored_status id r.2 = Some terminated
  ∧ ¬ has_loop (agentId agent) r.2.
Proof.
  intros Hsome r. subst r. rewrite (transitionStatus_found _ _ _ _ Hsome).
  destruct (handleTermination_stores agent (status_written id agent terminated s))
    as (Hag & _ & Hex).
  split; [apply handleTermination_returns|].
  unfold stored_status, has_loop. rewrite Hag, Hex. simpl.
  rewrite lookup_insert_eq, lookup_delete_eq. simpl.
  split; [done|]. split; [done|]. by intros [? ?].
Qed.
End Transitions.

Section Terminal.
Context {W : Type} {bots : BotManager W}.

Lemma spread_same_status (agent : AgentInstance) :
  spread agent (patch_status (status agent)) = agent.
Proof. by destruct agent. Qed.

Lemma status_written_same (s : State W) (id : string) (agent : AgentInstance) :
  agentsStore s !! id = Some agent →
  status_written id agent (status agent) s = s.
Proof.
  intros Hsome. unfold status_written, with_agentsStore.
  rewrite spread_same_status, insert_id by done. by destruct s.
Qed.

Lemma handleTermination_idle (agent : AgentInstance) (s : State W) :
  activeExecutors s !! agentId agent = None →
  getBot (minecraftBotId agent) (world s) = Returned false →
  LifecycleManager.handleTermination agent s = (Returned tt, s).
Proof. intros Hex Hbot. unfold_async. simpl. by rewrite Hex, Hbot. Qed.

Lemma transitionStatus_returns (s : State W) (id : string)
    (agent : AgentInstance) (newStatus : AgentStatus) :
  agentsStore s !! id = Some agent →
  let r := LifecycleManager.transitionStatus id newStatus s in
  r.1 = Returned tt
  ∧ agentsStore r.2 !! id = Some (spread agent (patch_status newStatus)).
Proof.
  intros Hsome r. subst r. rewrite (transitionStatus_found _ _ _ _ Hsome).
  set (s1 := status_written id agent newStatus s).
  assert (Hs1 : agentsStore s1 !! id = Some (spread agent (patch_status newStatus)))
    by apply lookup_insert_eq.
  destruct newStatus; try done.
  - destruct (handleResume_returns agent s1) as (? & _ & ->). done.
  - unfold LifecycleManager.handlePause, bind, console, ret.
    pose proof (stop_returns id s1) as Hr. pose proof (stop_agentsStore id s1) as Ha.
    destruct (BehaviorExecutor.stop id s1) as [r s2]. simpl in *. subst r.
    simpl. by rewrite Ha.
  - destruct (handleTermination_stores agent s1) as (-> & _).
    split; [apply handleTermination_returns|done].
  - unfold LifecycleManager.handleError, bind, console, ret.
    pose proof (stop_returns (agentId agent) s1) as Hr.
    pose proof (stop_agentsStore (agentId agent) s1) as Ha.
    destruct (BehaviorExecutor.stop (agentId agent) s1) as [r s2].
    simpl in *. subst r. simpl. by rewrite Ha.
Qed.

(** C1, as the code has it. The lifecycle manager has no terminal state:
    a transition requested for an agent whose stored status is
    [terminated] is carried out like any other. It returns normally and
    the stored record takes the requested status; a transition to
    [active] leaves the agent with a running loop. Terminating again is
    harmless: it returns normally, and when the agent has no loop and
    the bot manager no longer has its bot, the state is left exactly as
    it was, so that [disconnectBot] is not called. *)
Theorem C1_terminated_agent_transitions (s : State W) (id : string)
    (agent : AgentInstance) (newStatus : AgentStatus) :
  agentsStore s !! id = Some agent →
  status agent = terminated →
  let r := LifecycleManager.transitionStatus id newStatus s in
  r.1 = Returned tt
  ∧ agentsStore r.2 !! id = Some (spread agent (patch_status newStatus))
  ∧ (newStatus = active → has_loop (agentId agent) r.2)
  ∧ (newStatus = terminated →
     activeExecutors s !! agentId agent = None →
     getBot (minecraftBotId agent) (world s) = Returned false →
     r = (Returned tt, s)).
Proof.
  intros Hsome Hterm r.
  destruct (transitionStatus_returns s id agent newStatus Hsome) as [Hr Hst].
  fold r in Hr, Hst. do 2 (split; [done|]). split.
  - intros ->. subst r. rewrite (transitionStatus_found _ _ _ _ Hsome).
    by destruct (handleResume_returns agent (status_written id agent active s))
      as (_ & ? & _).
  - intros -> Hex Hbot. subst r. rewrite (transitionStatus_found _ _ _ _ Hsome).
    rewrite <- Hterm, status_written_same by done.
    by apply handleTermination_idle.
Qed.

(** C3, as the code has it. The check for a running loop is made by the
    lifecycle manager, not by the scheduler. Resuming an agent that has
    an entry in the executor map is a no-op: [handleResume] changes
    nothing, and the transition to [active] leaves the executor map, the
    timers and the handle counter as they were, so the agent keeps its
    one original handle. [initialize] itself makes no check: it always
    sets a new timer and stores its handle under the agent. *)
Theorem C3_resume_idempotent (s : State W) (id : string) (agent : AgentInstance) :
  agentsStore s !! id = Some agent →
  has_loop (agentId agent) s →
  LifecycleManager.handleResume agent s = (Returned tt, s)
  ∧ (let r := LifecycleManager.transitionStatus id active s in
     r.1 = Returned tt
     ∧ activeExecutors r.2 = activeExecutors s
     ∧ timers r.2 = timers s
     ∧ nextTimeout r.2 = nextTimeout s)
  ∧ activeExecutors (BehaviorExecutor.initialize agent s).2 !! agentId agent
    = Some (nextTimeout s).
Proof.
  intros Hsome Hloop.
  assert (Hres : ∀ s1 : State W, activeExecutors s1 = activeExecutors s →
            LifecycleManager.handleResume agent s1 = (Returned tt, s1)).
  { intros s1 Hs1. unfold_async. simpl. rewrite Hs1.
    by rewrite bool_decide_eq_true_2. }
  split; [by apply Hres|]. split.
  - simpl. rewrite (transitionStatus_found _ _ _ _ Hsome).
    by rewrite Hres.
  - by destruct (initialize_timer agent s).
Qed.
End Terminal.

(** ** State store *)

Section Store.
Context {W : Type}.

(** C4, as the code has it. [create] has no duplicate check and never
    fails. For a record whose identifier is already in the store it
    returns the record given, stores it in place of the existing one
    and resets the action log of that identifier to the empty list;
    records and logs under other identifiers, and the rest of the state,
    are unchanged. *)
Theorem C4_create_overwrites (s : State W) (agent : AgentInstance) :
  is_Some (agentsStore s !! agentId agent) →
  let r := AgentRepository.create agent s in
  r.1 = Returned agent
  ∧ agentsStore r.2 !! agentId agent = Some agent
  ∧ actionsStore r.2 !! agentId agent = Some []
  ∧ (∀ id, id ≠ agentId agent →
       agentsStore r.2 !! id = agentsStore s !! id
       ∧ actionsStore r.2 !! id = actionsStore s !! id)
  ∧ activeExecutors r.2 = activeExecutors s
  ∧ timers r.2 = timers s
  ∧ world r.2 = world s.
Proof.
  intros _ r. subst r. unfold_async. simpl.
  rewrite !lookup_insert_eq. repeat split; try done;
    by rewrite lookup_insert_ne.
Qed.
End Store.

(** ** Sorting *)

Section ArraySortFacts.
Context {A : Type} (compareFn : A → A → Z).

Hypothesis compareFn_total : ∀ a b, in_order compareFn a b ∨ in_order compareFn b a.
Hypothesis compareFn_trans :
  ∀ a b c, in_order compareFn a b → in_order compareFn b c → in_order compareFn a c.

Lemma sort_insert_perm (x : A) (l : list A) :
  sort_insert compareFn x l ≡ₚ x :: l.
Proof.
  induction l as [|y l IH]; simpl; [done|].
  case_bool_decide; [done|]. rewrite IH. apply Permutation_swap.
Qed.

Lemma Array_sort_perm (l : list A) : Array_sort compareFn l ≡ₚ l.
Proof.
  induction l as [|x l IH]; simpl; [done|].
  by rewrite sort_insert_perm, IH.
Qed.

Lemma sort_insert_sorted (x : A) (l : list A) :
  StronglySorted (in_order compareFn) l →
  StronglySorted (in_order compareFn) (sort_insert compareFn x l).
Proof.
  induction 1 as [|y l Hl IH Hy]; simpl.
  - by repeat constructor.
  - case_bool_decide as Hxy.
    + constructor; [by constructor|]. constructor; [done|].
      apply Forall_forall. intros z Hz.
      apply compareFn_trans with y; [done|].
      by apply (proj1 (Forall_forall _ _) Hy).
    + constructor; [done|]. rewrite sort_insert_perm. constructor; [|done].
      by destruct (compareFn_total x y).
Qed.

Lemma Array_sort_sorted (l : list A) :
  StronglySorted (in_order compareFn) (Array_sort compareFn l).
Proof.
  induction l as [|x l IH]; simpl; [constructor|].
  by apply sort_insert_sorted.
Qed.

End ArraySortFacts.

Lemma Array_slice0_take {A} (limit : Z) (l : list A) :
  (0 ≤ limit)%Z → Array_slice0 limit l = take (Z.to_nat limit) l.
Proof. intros Hl. unfold Array_slice0. rewrite bool_decide_eq_false_2; [done|lia]. Qed.

(** ** Action log *)

Section ActionLog.
Context {W : Type} `{!DateParse}.

Lemma newest_first_order (a b : BehavioralAction) :
  in_order AgentRepository.newest_first a b ↔ not_older a b.
Proof. unfold in_order, AgentRepository.newest_first, not_older. lia. Qed.

Lemma sorted_newest_first (l : list BehavioralAction) :
  StronglySorted not_older (Array_sort AgentRepository.newest_first l).
Proof.
  assert (Hs : StronglySorted (in_order AgentRepository.newest_first)
                 (Array_sort AgentRepository.newest_first l)).
  { apply Array_sort_sorted; unfold in_order, AgentRepository.newest_first; lia. }
  induction Hs as [|x l' Hl' IH Hx]; constructor; [done|].
  apply Forall_forall. intros y Hy. apply newest_first_order.
  by apply (proj1 (Forall_forall _ _) Hx).
Qed.

Lemma findActions_result (s : State W) (id : string) (limit : option Z) :
  (AgentRepository.findActions id limit s).1
  = Returned (Array_slice0 (default 100%Z limit)
                (Array_sort AgentRepository.newest_first
                   (default [] (actionsStore s !! id)))).
Proof.
  unfold AgentRepository.findActions, bind, gets, modify, ret. simpl.
  by destruct (actionsStore s !! id).
Qed.

(** C8. For every identifier and every limit [N >= 0], [findActions]
    returns at most [N] entries, namely the first [min N n] of the [n]
    entries stored for the identifier once these are put in order of
    timestamp, newest first: the result is sorted newest first and is a
    prefix of a newest-first arrangement of all the entries of that
    identifier. *)
Theorem C8_findActions_newest_first (s : State W) (id : string) (N : Z) :
  (0 ≤ N)%Z →
  let entries := default [] (actionsStore s !! id) in
  ∃ res full : list BehavioralAction,
    (AgentRepository.findActions id (Some N) s).1 = Returned res
    ∧ (Z.of_nat (length res) ≤ N)%Z
    ∧ length res = Nat.min (Z.to_nat N) (length entries)
    ∧ StronglySorted not_older res
    ∧ full ≡ₚ entries
    ∧ StronglySorted not_older full
    ∧ res `prefix_of` full.
Proof.
  intros HN entries.
  set (full := Array_sort AgentRepository.newest_first entries).
  exists (take (Z.to_nat N) full), full.
  assert (Hperm : full ≡ₚ entries) by apply Array_sort_perm.
  assert (Hsorted : StronglySorted not_older full) by apply sorted_newest_first.
  split; [|split; [|split; [|split; [|split; [|split]]]]].
  - rewrite findActions_result. simpl. by rewrite Array_slice0_take.
  - rewrite length_take. lia.
  - by rewrite length_take, Hperm.
  - rewrite <- (take_drop (Z.to_nat N) full) in Hsorted.
    by apply StronglySorted_app_1_l in Hsorted.
  - done.
  - done.
  - apply prefix_take.
Qed.

(** C10. [createAction] makes no check on the owning identifier. For an
    entry whose identifier has no agent record, it returns normally,
    adds the entry at the end of the log kept under that identifier
    (starting a log if there was none) and creates no agent record; a
    later [findActions] for the identifier, with a limit that covers the
    log, returns the entry. *)
Theorem C10_orphan_action_is_stored (s : State W) (action : BehavioralAction) :
  agentsStore s !! action_agentId action = None →
  let id := action_agentId action in
  let r := AgentRepository.createAction action s in
  r.1 = Returned tt
  ∧ agentsStore r.2 !! id = None
  ∧ actionsStore r.2 !! id = Some (default [] (actionsStore s !! id) ++ [action])
  ∧ ∀ limit : Z,
      (Z.of_nat (length (default [] (actionsStore s !! id))) < limit)%Z →
      ∃ res, (AgentRepository.findActions id (Some limit) r.2).1 = Returned res
             ∧ action ∈ res.
Proof.
  intros Hnone id r. subst r. unfold_async. simpl. fold id.
  split; [done|]. split; [done|]. rewrite lookup_insert_eq. split; [done|].
  intros limit Hlimit. eexists. split.
  - rewrite findActions_result. simpl. rewrite lookup_insert_eq. simpl.
    reflexivity.
  - rewrite Array_slice0_take by lia. rewrite take_ge.
    + rewrite Array_sort_perm. set_solver.
    + rewrite Array_sort_perm, length_app. simpl. lia.
Qed.
End ActionLog.

(** ** The scheduler follows the stored status *)

Section Invariant.
Context {W : Type} {bots : BotManager W}.

Lemma consistent_initial (w : W) : consistent (initial_state w).
Proof.
  split.
  - intros id a. simpl. by rewrite lookup_empty.
  - intros id. unfold has_loop, stored_status. simpl. rewrite !lookup_empty.
    split; [by intros [? ?]|done].
Qed.

Lemma consistent_same (s s' : State W) :
  agentsStore s' = agentsStore s →
  activeExecutors s' = activeExecutors s →
  consistent s → consistent s'.
Proof.
  intros Ha He [Hk Hl]. split.
  - intros id a. rewrite Ha. apply Hk.
  - intros id. unfold has_loop, stored_status. rewrite Ha, He. apply Hl.
Qed.

Lemma consistent_started (s s' : State W) (id : string) (a : AgentInstance)
    (h : Timeout) :
  agentsStore s' = <[id := a]> (agentsStore s) →
  activeExecutors s' = <[id := h]> (activeExecutors s) →
  agentId a = id → status a = active →
  consistent s → consistent s'.
Proof.
  intros Ha He Hid Hst [Hk Hl]. split.
  - intros j b. rewrite Ha. destruct (decide (id = j)) as [->|Hne].
    + rewrite lookup_insert_eq. by intros [= <-].
    + rewrite lookup_insert_ne by done. apply Hk.
  - intros j. unfold has_loop, stored_status. rewrite Ha, He.
    destruct (decide (id = j)) as [->|Hne].
    + rewrite !lookup_insert_eq. simpl. rewrite Hst. split; [done|eauto].
    + rewrite !lookup_insert_ne by done. apply Hl.
Qed.

Lemma consistent_stopped (s s' : State W) (id : string) (a : AgentInstance) :
  agentsStore s' = <[id := a]> (agentsStore s) →
  activeExecutors s' = delete id (activeExecutors s) →
  agentId a = id → status a ≠ active →
  consistent s → consistent s'.
Proof.
  intros Ha He Hid Hst [Hk Hl]. split.
  - intros j b. rewrite Ha. destruct (decide (id = j)) as [->|Hne].
    + rewrite lookup_insert_eq. by intros [= <-].
    + rewrite lookup_insert_ne by done. apply Hk.
  - intros j. unfold has_loop, stored_status. rewrite Ha, He.
    destruct (decide (id = j)) as [->|Hne].
    + rewrite lookup_insert_eq, lookup_delete_eq. simpl.
      split; [by intros [? ?]|]. intros [= Hact]. by destruct Hst.
    + rewrite lookup_insert_ne, lookup_delete_ne by done. apply Hl.
Qed.

Lemma handleResume_executors (agent : AgentInstance) (s : State W) :
  ∃ h, activeExecutors (LifecycleManager.handleResume agent s).2
       = <[agentId agent := h]> (activeExecutors s).
Proof.
  unfold_async. simpl. case_bool_decide as Hrun; simpl.
  - destruct Hrun as [h Hh]. exists h. by rewrite insert_id.
  - by eexists.
Qed.

Lemma transition_consistent (s : State W) (id : string) (newStatus : AgentStatus) :
  newStatus ≠ idle → newStatus ≠ spawning →
  consistent s →
  consistent (LifecycleManager.transitionStatus id newStatus s).2.
Proof.
  intros Hidle Hspawning Hs.
  destruct (agentsStore s !! id) as [agent|] eqn:Hsome.
  2: { by rewrite transitionStatus_missing. }
  rewrite (transitionStatus_found _ _ _ _ Hsome).
  assert (Hid : agentId agent = id) by by apply Hs.
  subst id. set (id := agentId agent) in *.
  set (s1 := status_written id agent newStatus s).
  assert (Hkey : agentId (spread agent (patch_status newStatus)) = id) by done.
  assert (Hstop : ∀ j, agentsStore (BehaviorExecutor.stop j s1).2
                       = <[id := spread agent (patch_status newStatus)]> (agentsStore s)
                     ∧ activeExecutors (BehaviorExecutor.stop j s1).2
                       = delete j (activeExecutors s)).
  { intros j. by rewrite stop_agentsStore, stop_activeExecutors. }
  destruct newStatus; try done.
  - destruct (handleResume_executors agent s1) as [h Hh].
    destruct (handleResume_returns agent s1) as (_ & _ & Ha).
    by apply (consistent_started s _ id (spread agent (patch_status active)) h).
  - destruct (Hstop id) as [Ha He].
    apply (consistent_stopped s _ id (spread agent (patch_status paused)));
      try done; unfold LifecycleManager.handlePause, bind, console, ret;
      by destruct (BehaviorExecutor.stop id s1) as [[[]|] s2].
  - destruct (handleTermination_stores agent s1) as (Ha & _ & He).
    by apply (consistent_stopped s _ id (spread agent (patch_status terminated))).
  - destruct (Hstop (agentId agent)) as [Ha He].
    apply (consistent_stopped s _ id (spread agent (patch_status error)));
      try done; unfold LifecycleManager.handleError, bind, console, ret;
      by destruct (BehaviorExecutor.stop (agentId agent) s1) as [[[]|] s2].
Qed.
End Invariant.

Section Reachable.
Context {W : Type} {bots : BotManager W}.

Lemma update_stats_identity (id t : string) (n : Z) :
  preserves (W:=W) identity_view (AgentRepository.update id (patch_stats t n)).
Proof.
  intros s. unfold_async. simpl.
  destruct (agentsStore s !! id) as [a|] eqn:Ha; [|done].
  unfold identity_view. simpl. f_equal.
  rewrite fmap_insert. apply insert_id. by rewrite lookup_fmap, Ha.
Qed.

Lemma consistent_identity (s s' : State W) :
  identity_view s' = identity_view s → consistent s → consistent s'.
Proof.
  unfold identity_view. intros [= Hm He] [Hk Hl].
  assert (Hlook : ∀ id, (λ a, (agentId a, status a)) <$> agentsStore s' !! id
                        = (λ a, (agentId a, status a)) <$> agentsStore s !! id).
  { intros id. by rewrite <- !lookup_fmap, Hm. }
  split.
  - intros id a Ha. specialize (Hlook id). rewrite Ha in Hlook. simpl in Hlook.
    destruct (agentsStore s !! id) as [b|] eqn:Hb; [|done].
    injection Hlook as -> _. by apply Hk.
  - intros id. unfold has_loop, stored_status. rewrite He.
    etrans; [apply Hl|]. unfold stored_status. specialize (Hlook id).
    destruct (agentsStore s' !! id), (agentsStore s !! id); simpl in *;
      try done. injection Hlook as _ ->. done.
Qed.

Lemma tick_consistent (h : Timeout) (inp : TickInput) (s : State W) :
  consistent s → consistent (BehaviorExecutor.tick h inp s).2.
Proof.
  apply consistent_identity. apply tick_preserves; [done|].
  apply update_stats_identity.
Qed.

Lemma createAgent_consistent (config : AgentConfig) (inp : SpawnInput)
    (s : State W) :
  consistent s → consistent (AgentService.createAgent config inp s).2.
Proof.
  intros Hs. unfold AgentService.createAgent, AgentService.call_createBot.
  unfold bind at 1.
  destruct (createBot _ _ _ _ _) as [[botId|msg] w]; [|by simpl].
  unfold_async. simpl. rewrite lookup_insert_eq. simpl.
  eapply (consistent_started s _ (spawn_agentId inp)); [..|exact Hs]; simpl;
    [by rewrite insert_insert_eq|done..].
Qed.

Lemma after_consistent (op : Operation) (s : State W) :
  consistent s → consistent (after op s).
Proof.
  intros Hs. unfold after. destruct op; simpl.
  - unfold discard, bind, ret.
    pose proof (createAgent_consistent config inp s Hs) as Hc.
    by destruct (AgentService.createAgent config inp s) as [[?|?] ?].
  - by apply transition_consistent.
  - by apply transition_consistent.
  - by apply transition_consistent.
  - by apply transition_consistent.
  - by apply tick_consistent.
Qed.

Lemma reachable_after_all (ops : list Operation) (s : State W) :
  reachable s → reachable (after_all ops s).
Proof.
  revert s. induction ops as [|op ops IH]; intros s Hs; simpl; [done|].
  apply IH. by constructor.
Qed.

(** C2. In every state reached from the empty state by spawning agents,
    pausing, resuming and terminating them, putting them in the error
    state, and firing timers (a state being taken once an operation has
    run to its end), an agent has an entry in the executor map if and
    only if its record in the store has status [active]. The map keeps
    one handle per identifier, so an active agent has exactly one timer
    registered and an agent with any other status, or without a record,
    has none. *)
Theorem C2_loop_iff_active (s : State W) (id : string) :
  reachable s →
  (has_loop id s ↔ stored_status id s = Some active)
  ∧ (∀ h h', activeExecutors s !! id = Some h →
             activeExecutors s !! id = Some h' → h = h')
  ∧ (stored_status id s ≠ Some active → activeExecutors s !! id = None).
Proof.
  intros Hreach.
  assert (Hs : consistent s).
  { induction Hreach; [apply consistent_initial|by apply after_consistent]. }
  destruct Hs as [_ Hl]. split; [apply Hl|]. split.
  - intros h h' Hh. rewrite Hh. by intros [= ->].
  - intros Hst. destruct (activeExecutors s !! id) as [h|] eqn:Hh; [|done].
    destruct Hst. apply Hl. unfold has_loop. rewrite Hh. eauto.
Qed.
End Reachable.

(** ** Timers that are set are the registered ones *)

Section LiveTimers.
Context {W : Type} {bots : BotManager W}.

Lemma registered_of_view (s s' : State W) :
  scheduler_view s' = scheduler_view s →
  timers_registered s → timers_registered s'.
Proof.
  unfold scheduler_view, timers_registered. intros [= -> -> ->]. done.
Qed.

Lemma stop_registered (id : string) (s : State W) :
  timers_registered s → timers_registered (BehaviorExecutor.stop id s).2.
Proof.
  intros [Hset Hreg]. unfold_async. simpl.
  destruct (activeExecutors s !! id) as [h|] eqn:Hid; simpl; [|done].
  destruct (Hreg id h Hid) as (t & Ht & Htid). split; simpl.
  - intros h' t' Hh'. apply lookup_delete_Some in Hh' as [Hne Hh'].
    destruct (Hset h' t' Hh') as [Hlt Hex]. split; [done|].
    rewrite lookup_delete_ne; [done|]. intros Heq. rewrite <- Heq, Hid in Hex.
    by injection Hex.
  - intros id' h' Hid'. apply lookup_delete_Some in Hid' as [Hne Hid'].
    destruct (Hreg id' h' Hid') as (t' & Ht' & Htid'). exists t'.
    split; [|done]. rewrite lookup_delete_ne; [done|]. intros <-.
    rewrite Ht in Ht'. injection Ht' as <-. by rewrite Htid in Htid'.
Qed.

Lemma initialize_registered (agent : AgentInstance) (s : State W) :
  activeExecutors s !! agentId agent = None →
  timers_registered s → timers_registered (BehaviorExecutor.initialize agent s).2.
Proof.
  intros Hnone [Hset Hreg]. unfold_async. split; simpl.
  - intros h t Hh. apply lookup_insert_Some in Hh as [[<- <-]|[Hne Hh]]; simpl.
    + split; [lia|]. by rewrite lookup_insert_eq.
    + destruct (Hset h t Hh) as [Hlt Hex]. split; [lia|].
      rewrite lookup_insert_ne; [done|]. intros Heq.
      by rewrite <- Heq, Hnone in Hex.
  - intros id h Hid. apply lookup_insert_Some in Hid as [[<- <-]|[Hne Hid]].
    + eexists. by rewrite lookup_insert_eq.
    + destruct (Hreg id h Hid) as (t & Ht & Htid). exists t. split; [|done].
      rewrite lookup_insert_ne; [done|]. intros <-.
      destruct (Hset _ _ Ht). lia.
Qed.

Lemma handleTermination_scheduler (agent : AgentInstance) (s : State W) :
  scheduler_view (LifecycleManager.handleTermination agent s).2
  = scheduler_view (BehaviorExecutor.stop (agentId agent) s).2.
Proof.
  unfold_async. simpl.
  destruct (activeExecutors s !! agentId agent); simpl;
    destruct (getBot _ _) as [[]|]; simpl; try done;
    by destruct (disconnectBot _ _) as [[[]|]].
Qed.

Lemma handleResume_state (agent : AgentInstance) (s : State W) :
  (LifecycleManager.handleResume agent s).2
  = if bool_decide (is_Some (activeExecutors s !! agentId agent)) then s
    else (BehaviorExecutor.initialize agent s).2.
Proof.
  unfold LifecycleManager.handleResume, BehaviorExecutor.isRunning.
  unfold bind at 1. unfold gets. case_bool_decide; simpl; [done|].
  unfold bind, console, ret.
  by destruct (BehaviorExecutor.initialize agent s) as [[[]|] ?].
Qed.

Lemma transition_registered (s : State W) (id : string) (newStatus : AgentStatus) :
  timers_registered s →
  timers_registered (LifecycleManager.transitionStatus id newStatus s).2.
Proof.
  intros Hs. destruct (agentsStore s !! id) as [agent|] eqn:Hsome.
  2: { by rewrite transitionStatus_missing. }
  rewrite (transitionStatus_found _ _ _ _ Hsome).
  set (s1 := status_written id agent newStatus s).
  assert (Hs1 : timers_registered s1) by by apply (registered_of_view s).
  assert (Hstop : ∀ j, timers_registered
            (bind (BehaviorExecutor.stop j) (λ _, console (W:=W) "") s1).2).
  { intros j. unfold bind, console, ret.
    pose proof (stop_registered j s1 Hs1) as Hj.
    by destruct (BehaviorExecutor.stop j s1) as [[[]|] s2]. }
  destruct newStatus; try done; try apply Hstop.
  - rewrite handleResume_state. case_bool_decide as Hrun; [done|].
    apply initialize_registered; [|done].
    by destruct (activeExecutors s !! agentId agent) eqn:E; [destruct Hrun|].
  - apply (registered_of_view (BehaviorExecutor.stop (agentId agent) s1).2);
      [apply handleTermination_scheduler|by apply stop_registered].
Qed.

Lemma createAgent_registered (config : AgentConfig) (inp : SpawnInput)
    (s : State W) :
  activeExecutors s !! spawn_agentId inp = None →
  timers_registered s →
  timers_registered (AgentService.createAgent config inp s).2.
Proof.
  intros Hnone Hs. unfold AgentService.createAgent, AgentService.call_createBot.
  unfold bind at 1.
  destruct (createBot _ _ _ _ _) as [[botId|msg] w]; [|by simpl].
  set (agent := mkAgent _ _ _ _ _ _ _ _ _ _).
  pose proof (initialize_registered agent
                (AgentRepository.create agent (with_world w s)).2 Hnone Hs) as Hinit.
  revert Hinit. unfold_async. simpl. by rewrite lookup_insert_eq.
Qed.

Lemma reachable_fresh_reachable (s : State W) : reachable_fresh s → reachable s.
Proof. induction 1; by constructor. Qed.

Lemma reachable_fresh_invariants (s : State W) :
  reachable_fresh s → consistent s ∧ timers_registered s.
Proof.
  induction 1 as [w|op s Hreach [Hcons Hreg] Hfresh].
  { split; [apply consistent_initial|].
    split; simpl; intros ? ?; by rewrite lookup_empty. }
  split; [by apply after_consistent|].
  unfold after. destruct op; simpl; try by apply transition_registered.
  - simpl in Hfresh. unfold discard, bind, ret.
    assert (Hnone : activeExecutors s !! spawn_agentId inp = None).
    { destruct (activeExecutors s !! spawn_agentId inp) as [h|] eqn:Hh; [|done].
      assert (Hloop : has_loop (spawn_agentId inp) s) by (unfold has_loop; eauto).
      apply Hcons in Hloop. unfold stored_status in Hloop.
      by rewrite Hfresh in Hloop. }
    pose proof (createAgent_registered config inp s Hnone Hreg) as Hc.
    by destruct (AgentService.createAgent config inp s) as [[?|?] ?].
  - apply (registered_of_view s); [apply tick_frame|done].
Qed.

(** When spawns draw fresh identifiers, the timers that are set are
    exactly the handles of the executor map: a timer only fires for an
    agent whose stored status is [active], and such an agent has one
    timer and no other. *)
Theorem live_timers_are_active_agents (s : State W) :
  reachable_fresh s →
  (∀ h t, timers s !! h = Some t →
     stored_status (agentId (timer_agent t)) s = Some active)
  ∧ (∀ id, stored_status id s = Some active →
     ∃ h t, timers s !! h = Some t ∧ agentId (timer_agent t) = id
            ∧ ∀ h' t', timers s !! h' = Some t' →
                       agentId (timer_agent t') = id → h' = h).
Proof.
  intros Hreach.
  destruct (reachable_fresh_invariants s Hreach) as [[_ Hloops] [Hset Hreg]].
  split.
  - intros h t Ht. apply Hloops. destruct (Hset h t Ht) as [_ Hex].
    unfold has_loop. eauto.
  - intros id Hact. apply Hloops in Hact as [h Hh].
    destruct (Hreg id h Hh) as (t & Ht & Htid). exists h, t.
    split; [done|]. split; [done|]. intros h' t' Ht' Hid'.
    destruct (Hset h' t' Ht') as [_ Hex]. rewrite Hid', Hh in Hex.
    by injection Hex.
Qed.
End LiveTimers.

(** * Worked scenarios *)

Module Scenarios.
Import Examples.

(** The code at the input of C1: a transition to [active] requested for a
    terminated agent is accepted; the stored status becomes [active] and a
    timer is set for the agent. *)
Lemma C1_terminated_agent_is_resumed :
  let s := store_with terminated ∅ in
  let r := LifecycleManager.transitionStatus "agent-A" active s in
  stored_status "agent-A" s = Some terminated
  ∧ r.1 = Returned tt
  ∧ stored_status "agent-A" r.2 = Some active
  ∧ activeExecutors s !! "agent-A" = None
  ∧ activeExecutors r.2 !! "agent-A" = Some 0%nat
  ∧ size (timers r.2) = 1%nat.
Proof. vm_compute. repeat split. Qed.

Lemma C1_terminated_agent_transitions_witness :
  let s := store_with terminated ∅ in
  let r := LifecycleManager.transitionStatus "agent-A" terminated s in
  (agentsStore s !! "agent-A" = Some (agentA terminated)
   ∧ status (agentA terminated) = terminated)
  ∧ r.1 = Returned tt
  ∧ agentsStore r.2 !! "agent-A"
    = Some (spread (agentA terminated) (patch_status terminated))
  ∧ (terminated = active → has_loop (agentId (agentA terminated)) r.2)
  ∧ (terminated = terminated →
     activeExecutors s !! agentId (agentA terminated) = None →
     getBot (minecraftBotId (agentA terminated)) (world s) = Returned false →
     r = (Returned tt, s)).
Proof.
  split; [split; reflexivity|].
  apply (C1_terminated_agent_transitions (store_with terminated ∅) "agent-A"
           (agentA terminated) terminated); reflexivity.
Defined.

Lemma C2_loop_iff_active_witness :
  let s := after_all scenario (initial_state (∅ : gset string)) in
  reachable s
  ∧ (has_loop "agent-A" s ↔ stored_status "agent-A" s = Some active)
  ∧ (∀ h h', activeExecutors s !! "agent-A" = Some h →
             activeExecutors s !! "agent-A" = Some h' → h = h')
  ∧ (stored_status "agent-A" s ≠ Some active →
     activeExecutors s !! "agent-A" = None).
Proof.
  assert (Hreach : reachable (after_all scenario (initial_state (∅ : gset string)))).
  { apply reachable_after_all. constructor. }
  split; [exact Hreach|].
  exact (C2_loop_iff_active _ "agent-A" Hreach).
Defined.

(** The code at the input of C3: a second [initialize] for an agent whose
    loop is running stores a new handle in place of the original one, and
    both timers stay set. *)
Lemma C3_second_initialize_duplicates :
  let s1 := (BehaviorExecutor.initialize (agentA active) (store_with active ∅)).2 in
  let s2 := (BehaviorExecutor.initialize (agentA active) s1).2 in
  activeExecutors s1 !! "agent-A" = Some 0%nat
  ∧ activeExecutors s2 !! "agent-A" = Some 1%nat
  ∧ timer_agent <$> timers s2 !! 0%nat = Some (agentA active)
  ∧ timer_agent <$> timers s2 !! 1%nat = Some (agentA active)
  ∧ size (timers s1) = 1%nat
  ∧ size (timers s2) = 2%nat.
Proof. vm_compute. repeat split. Qed.

Lemma C3_resume_idempotent_witness :
  let s := (BehaviorExecutor.initialize (agentA active) (store_with active ∅)).2 in
  (agentsStore s !! "agent-A" = Some (agentA active)
   ∧ has_loop (agentId (agentA active)) s)
  ∧ LifecycleManager.handleResume (agentA active) s = (Returned tt, s)
  ∧ (let r := LifecycleManager.transitionStatus "agent-A" active s in
     r.1 = Returned tt
     ∧ activeExecutors r.2 = activeExecutors s
     ∧ timers r.2 = timers s
     ∧ nextTimeout r.2 = nextTimeout s)
  ∧ activeExecutors (BehaviorExecutor.initialize (agentA active) s).2
      !! agentId (agentA active)
    = Some (nextTimeout s).
Proof.
  assert (Hloop : has_loop (agentId (agentA active))
            (BehaviorExecutor.initialize (agentA active) (store_with active ∅)).2).
  { exists 0%nat. reflexivity. }
  assert (Hsome : agentsStore
            (BehaviorExecutor.initialize (agentA active) (store_with active ∅)).2
            !! "agent-A" = Some (agentA active)) by reflexivity.
  split; [split; [exact Hsome|exact Hloop]|].
  exact (C3_resume_idempotent _ "agent-A" (agentA active) Hsome Hloop).
Defined.

(** The code at the input of C4: [create] for an identifier that is in the
    store returns normally, replaces the record and empties the log. *)
Lemma C4_create_replaces_existing :
  let r := AgentRepository.create (agentA spawning) store_with_log in
  agentsStore store_with_log !! "agent-A" = Some (agentA paused)
  ∧ length (default [] (actionsStore store_with_log !! "agent-A")) = 2%nat
  ∧ r.1 = Returned (agentA spawning)
  ∧ agentsStore r.2 !! "agent-A" = Some (agentA spawning)
  ∧ actionsStore r.2 !! "agent-A" = Some [].
Proof. vm_compute. repeat split. Qed.

Lemma C4_create_overwrites_witness :
  let r := AgentRepository.create (agentA spawning) store_with_log in
  is_Some (agentsStore store_with_log !! agentId (agentA spawning))
  ∧ r.1 = Returned (agentA spawning)
  ∧ agentsStore r.2 !! agentId (agentA spawning) = Some (agentA spawning)
  ∧ actionsStore r.2 !! agentId (agentA spawning) = Some []
  ∧ (∀ id, id ≠ agentId (agentA spawning) →
       agentsStore r.2 !! id = agentsStore store_with_log !! id
       ∧ actionsStore r.2 !! id = actionsStore store_with_log !! id)
  ∧ activeExecutors r.2 = activeExecutors store_with_log
  ∧ timers r.2 = timers store_with_log
  ∧ world r.2 = world store_with_log.
Proof.
  assert (Hin : is_Some (agentsStore store_with_log !! agentId (agentA spawning))).
  { exists (agentA paused). reflexivity. }
  split; [exact Hin|].
  exact (C4_create_overwrites store_with_log (agentA spawning) Hin).
Defined.

(** With a bot manager whose [disconnectBot] throws, termination still
    returns; the call was made. *)
Lemma C5_termination_never_throws_witness :
  let s := after (bots:=broken_bots) (OpSpawn config_alice spawn_A) (initial_state tt) in
  let r := LifecycleManager.transitionStatus (bots:=broken_bots) "agent-A" terminated s in
  agentsStore s !! "agent-A" = Some (agentA active)
  ∧ disconnects r.2 = ["bot-alice"]
  ∧ r.1 = Returned tt
  ∧ agentsStore r.2 !! "agent-A"
    = Some (spread (agentA active) (patch_status terminated))
  ∧ stored_status "agent-A" r.2 = Some terminated
  ∧ ¬ has_loop (agentId (agentA active)) r.2.
Proof.
  split; [reflexivity|]. split; [reflexivity|].
  apply (C5_termination_never_throws (bots:=broken_bots)
           (after (bots:=broken_bots) (OpSpawn config_alice spawn_A) (initial_state tt))
           "agent-A" (agentA active)).
  reflexivity.
Defined.

Lemma C6_fixed_tick_period_witness :
  let f := mkFrequency 3 9 in
  ((0 < minActionsPerMinute f)%Q ∧ (minActionsPerMinute f <= maxActionsPerMinute f)%Q)
  ∧ (BehaviorExecutor.calculateInterval f == 10000)%Q
  ∧ (BehaviorExecutor.calculateInterval f * ((3 + 9) / 2) == 60000)%Q.
Proof.
  assert (H1 : (0 < minActionsPerMinute (mkFrequency 3 9))%Q) by reflexivity.
  assert (H2 : (minActionsPerMinute (mkFrequency 3 9)
                <= maxActionsPerMinute (mkFrequency 3 9))%Q) by discriminate.
  split; [by split|].
  destruct (C6_fixed_tick_period (bots:=set_bots) (mkFrequency 3 9) H1 H2)
    as (_ & Hmul & _ & _ & H39).
  split; [exact H39|exact Hmul].
Defined.

Lemma C7_unknown_agent_not_found_witness :
  let s := store_with active {[ "bot-alice" ]} in
  agentsStore s !! "agent-B" = None
  ∧ LifecycleManager.transitionStatus "agent-B" terminated s
    = (Thrown (AgentNotFound "agent-B"), s).
Proof.
  split; [reflexivity|].
  apply (C7_unknown_agent_not_found (store_with active {[ "bot-alice" ]})
           "agent-B" terminated).
  reflexivity.
Defined.

Lemma C8_findActions_newest_first_witness :
  (0 ≤ 1)%Z
  ∧ ∃ res full : list BehavioralAction,
      (AgentRepository.findActions "agent-A" (Some 1%Z) store_with_log).1 = Returned res
      ∧ (Z.of_nat (length res) ≤ 1)%Z
      ∧ length res
        = Nat.min (Z.to_nat 1)
            (length (default [] (actionsStore store_with_log !! "agent-A")))
      ∧ StronglySorted not_older res
      ∧ full ≡ₚ default [] (actionsStore store_with_log !! "agent-A")
      ∧ StronglySorted not_older full
      ∧ res `prefix_of` full.
Proof.
  assert (H01 : (0 ≤ 1)%Z) by lia.
  split; [exact H01|].
  exact (C8_findActions_newest_first store_with_log "agent-A" 1%Z H01).
Defined.

(** The newest of the two stored entries is the one returned. *)
Example findActions_returns_newest :
  (AgentRepository.findActions "agent-A" (Some 1%Z) store_with_log).1
  = Returned [entry "action-2" "2026-02-07T23:24:23.000Z" "agent-A"].
Proof. reflexivity. Qed.

Lemma C10_orphan_action_is_stored_witness :
  let action := entry "action-9" "2026-02-07T23:25:00.000Z" "agent-gone" in
  let r := AgentRepository.createAction action store_with_log in
  agentsStore store_with_log !! action_agentId action = None
  ∧ r.1 = Returned tt
  ∧ agentsStore r.2 !! "agent-gone" = None
  ∧ actionsStore r.2 !! "agent-gone"
    = Some (default [] (actionsStore store_with_log !! "agent-gone") ++ [action])
  ∧ ∀ limit : Z,
      (Z.of_nat (length (default [] (actionsStore store_with_log !! "agent-gone")))
       < limit)%Z →
      ∃ res, (AgentRepository.findActions "agent-gone" (Some limit) r.2).1
             = Returned res
             ∧ action ∈ res.
Proof.
  split; [reflexivity|].
  apply (C10_orphan_action_is_stored store_with_log
           (entry "action-9" "2026-02-07T23:25:00.000Z" "agent-gone")).
  reflexivity.
Defined.

End Scenarios.

(** * Further properties of the module *)

#[local] Set Warnings "-clear-no-such-hyp".

(** ** The store *)

Section StoreFacts.
Context {W : Type}.

Lemma default_later_wins {A} (x : A) (first second : option A) :
  default (default x first) second = default x (later_wins first second).
Proof. by destruct second. Qed.

Lemma spread_spread (agent : AgentInstance) (first second : AgentPatch) :
  spread (spread agent first) second = spread agent (patch_merge first second).
Proof. unfold spread, patch_merge. simpl. by rewrite !default_later_wins. Qed.

(** X1. [update] changes one record and nothing else. For an identifier
    with a record it returns and the record becomes the old one overlaid
    with the given fields; without a record it throws and the state is
    untouched. In both cases the set of stored identifiers, every other
    record, the action logs, the scheduler and the bot manager are as
    before: the key of a record never changes, even when the patch gives
    another [agentId]. *)
Theorem update_touches_one_record (s : State W) (id : string) (data : AgentPatch) :
  let r := AgentRepository.update id data s in
  match agentsStore s !! id with
  | Some agent =>
      r.1 = Returned tt
      ∧ agentsStore r.2 !! id = Some (spread agent data)
  | None => r = (Thrown (AgentNotFound id), s)
  end
  ∧ dom (agentsStore r.2) = dom (agentsStore s)
  ∧ (∀ j, j ≠ id → agentsStore r.2 !! j = agentsStore s !! j)
  ∧ actionsStore r.2 = actionsStore s
  ∧ scheduler_view r.2 = scheduler_view s
  ∧ world r.2 = world s
  ∧ disconnects r.2 = disconnects s.
Proof.
  intros r. subst r. unfold_async. simpl.
  destruct (agentsStore s !! id) as [agent|] eqn:Hid; simpl; [|done].
  rewrite lookup_insert_eq. repeat split; try done.
  - apply dom_insert_lookup_L. by rewrite Hid.
  - intros j Hj. by rewrite lookup_insert_ne.
Qed.

(** X2. Two updates of the same identifier in a row are one update with
    the two patches merged, a field of the second patch winning; this
    also holds when the identifier is unknown (both sides throw and
    change nothing). *)
Theorem update_twice_merges (s : State W) (id : string) (first second : AgentPatch) :
  (AgentRepository.update id first ;; AgentRepository.update id second) s
  = AgentRepository.update id (patch_merge first second) s.
Proof.
  unfold_async. simpl.
  destruct (agentsStore s !! id) as [agent|] eqn:Hid; simpl; [|done].
  rewrite lookup_insert_eq. unfold with_agentsStore. simpl.
  by rewrite insert_insert_eq, spread_spread.
Qed.

(** X3. [delete] removes the record and the action log of the identifier
    and nothing else: afterwards [findById] finds nothing, [exists] is
    false and the log is gone, while other identifiers keep their record
    and log. It never throws, also for an unknown identifier, and it does
    not touch the scheduler: a running loop of the deleted agent stays
    registered. *)
Theorem delete_removes_record_and_log (s : State W) (id : string) :
  let r := AgentRepository.delete id s in
  r.1 = Returned tt
  ∧ (AgentRepository.findById id r.2).1 = Returned None
  ∧ (AgentRepository.exists_ id r.2).1 = Returned false
  ∧ actionsStore r.2 !! id = None
  ∧ (∀ j, j ≠ id →
       agentsStore r.2 !! j = agentsStore s !! j
       ∧ actionsStore r.2 !! j = actionsStore s !! j)
  ∧ scheduler_view r.2 = scheduler_view s
  ∧ world r.2 = world s.
Proof.
  intros r. subst r. unfold AgentRepository.exists_. unfold_async. simpl.
  rewrite !lookup_delete_eq. repeat split; try done;
    by rewrite lookup_delete_ne.
Qed.

(** X4. Creating an agent under an identifier that has neither a record
    nor a log, and deleting it again, gives back the state as it was. *)
Theorem create_then_delete (s : State W) (agent : AgentInstance) :
  agentsStore s !! agentId agent = None →
  actionsStore s !! agentId agent = None →
  (AgentRepository.create agent ;; AgentRepository.delete (agentId agent)) s
  = (Returned tt, s).
Proof.
  intros Hagent Hlog. unfold_async. simpl.
  unfold with_actionsStore, with_agentsStore. simpl.
  rewrite !delete_insert_id by done. by destruct s.
Qed.
End StoreFacts.

(** ** Sorting, again *)

Section ArraySortMore.
Context {A : Type} (compareFn : A → A → Z).

Lemma Array_sort_fixpoint (l : list A) :
  StronglySorted (in_order compareFn) l → Array_sort compareFn l = l.
Proof.
  induction 1 as [|x l Hl IH Hx]; simpl; [done|]. rewrite IH.
  destruct l as [|y l]; simpl; [done|].
  rewrite bool_decide_eq_true_2; [done|]. by inversion Hx.
Qed.

(** Stability: [sort_insert] passes only elements that must stand before
    the new one, so a class of elements that compare equal keeps its
    order. *)
Lemma sort_insert_filter (P : A → Prop) `{∀ a, Decision (P a)} (x : A) (l : list A) :
  (∀ y, P x → P y → (compareFn x y ≤ 0)%Z) →
  filter P (sort_insert compareFn x l) = filter P (x :: l).
Proof.
  intros Heq. induction l as [|y l IH]; simpl; [done|].
  case_bool_decide as Hxy; [done|].
  rewrite filter_cons, IH, !filter_cons.
  destruct (decide (P y)) as [Hy|Hy]; [|done].
  destruct (decide (P x)) as [Hx|Hx]; [|done].
  destruct Hxy. by apply Heq.
Qed.

Lemma Array_sort_filter (P : A → Prop) `{∀ a, Decision (P a)} (l : list A) :
  (∀ x y, P x → P y → (compareFn x y ≤ 0)%Z) →
  filter P (Array_sort compareFn l) = filter P l.
Proof.
  intros Heq. induction l as [|x l IH]; simpl; [done|].
  rewrite sort_insert_filter by eauto. by rewrite !filter_cons, IH.
Qed.
End ArraySortMore.

(** ** The action log, again *)

Section ActionLogMore.
Context {W : Type} `{!DateParse}.

Lemma newest_first_total (a b : BehavioralAction) :
  in_order AgentRepository.newest_first a b
  ∨ in_order AgentRepository.newest_first b a.
Proof. unfold in_order, AgentRepository.newest_first. lia. Qed.

Lemma newest_first_trans (a b c : BehavioralAction) :
  in_order AgentRepository.newest_first a b →
  in_order AgentRepository.newest_first b c →
  in_order AgentRepository.newest_first a c.
Proof. unfold in_order, AgentRepository.newest_first. lia. Qed.

(** X5. [findActions] sorts the stored array in place, and that is its
    only effect: the log of the identifier holds the same entries as
    before in another order, every other log, the agents and the
    scheduler are untouched. Asking again gives the same answer and
    changes nothing further. *)
Theorem findActions_only_reorders (s : State W) (id : string) (limit : option Z) :
  let r := AgentRepository.findActions id limit s in
  default [] (actionsStore r.2 !! id) ≡ₚ default [] (actionsStore s !! id)
  ∧ (∀ j, j ≠ id → actionsStore r.2 !! j = actionsStore s !! j)
  ∧ dom (actionsStore r.2) = dom (actionsStore s)
  ∧ agentsStore r.2 = agentsStore s
  ∧ scheduler_view r.2 = scheduler_view s
  ∧ AgentRepository.findActions id limit r.2 = r.
Proof.
  intros r. subst r. unfold AgentRepository.findActions, bind, gets, modify, ret.
  simpl. destruct (actionsStore s !! id) as [l|] eqn:Hl; simpl.
  - rewrite !lookup_insert_eq. simpl. split; [apply Array_sort_perm|].
    split; [intros j Hj; by rewrite lookup_insert_ne|].
    split; [apply dom_insert_lookup_L; by rewrite Hl|].
    split; [done|]. split; [done|].
    rewrite Array_sort_fixpoint.
    + unfold with_actionsStore. simpl. by rewrite insert_insert_eq.
    + apply Array_sort_sorted; [apply newest_first_total|apply newest_first_trans].
  - by rewrite Hl.
Qed.

(** X6. Entries with the same timestamp keep the order in which they were
    appended: after [findActions] the entries of the stored log that carry
    a given instant are those of the log before, in the same order. *)
Theorem findActions_keeps_order_of_ties (s : State W) (id : string)
    (limit : option Z) (l : list BehavioralAction) (t : Z) :
  actionsStore s !! id = Some l →
  ∃ sorted,
    actionsStore (AgentRepository.findActions id limit s).2 !! id = Some sorted
    ∧ (AgentRepository.findActions id limit s).1
      = Returned (Array_slice0 (default 100%Z limit) sorted)
    ∧ filter (λ a, Date_getTime (timestamp a) = t) sorted
      = filter (λ a, Date_getTime (timestamp a) = t) l.
Proof.
  intros Hl. exists (Array_sort AgentRepository.newest_first l).
  rewrite findActions_result, Hl. simpl.
  unfold AgentRepository.findActions, bind, gets, modify, ret. simpl.
  rewrite Hl. simpl. rewrite lookup_insert_eq. split; [done|]. split; [done|].
  apply Array_sort_filter. intros x y Hx Hy.
  unfold AgentRepository.newest_first. lia.
Qed.

(** X7. A negative limit is not rejected: [slice(0, limit)] then counts
    from the end, so with limit [-k] the [k] oldest entries are left out
    and the [n - k] newest are returned (none when [k >= n]). *)
Theorem findActions_negative_limit (s : State W) (id : string) (k : Z) :
  (0 < k)%Z →
  let full := Array_sort AgentRepository.newest_first
                (default [] (actionsStore s !! id)) in
  ∃ res,
    (AgentRepository.findActions id (Some (- k)%Z) s).1 = Returned res
    ∧ res = take (length full - Z.to_nat k) full
    ∧ length res = (length (default [] (actionsStore s !! id)) - Z.to_nat k)%nat.
Proof.
  intros Hk full. eexists. split; [apply findActions_result|].
  simpl. fold full. unfold Array_slice0. rewrite bool_decide_eq_true_2 by lia.
  assert (Hn : Z.to_nat (Z.max (Z.of_nat (length full) + - k) 0)
               = (length full - Z.to_nat k)%nat) by lia.
  rewrite Hn. split; [done|]. rewrite length_take.
  unfold full. rewrite Array_sort_perm. lia.
Qed.
End ActionLogMore.

(** ** Listing agents *)

Section Listing.
Context {W : Type} `{!DateParse}.

Lemma filter_all {A} (P : A → Prop) `{∀ a, Decision (P a)} (l : list A) :
  (∀ a, P a) → filter P l = l.
Proof.
  intros HP. induction l as [|x l IH]; [done|].
  rewrite filter_cons, IH. destruct (decide (P x)) as [|Hn]; [done|by destruct Hn].
Qed.

Lemma optional_filter {A} (given : option string) (field : A → string)
    (l : list A) :
  match given with
  | Some v => if truthy v then filter (λ a, field a = v) l else l
  | None => l
  end
  = filter (λ a, Is_true
                   match given with
                   | Some v => negb (truthy v) || bool_decide (field a = v)
                   | None => true
                   end) l.
Proof.
  destruct given as [v|]; [destruct (truthy v)|]; simpl.
  - apply list_filter_iff. intros a. by rewrite bool_decide_spec.
  - by rewrite filter_all.
  - by rewrite filter_all.
Qed.

Lemma Map_values_perm {V} (order : list string) (m : gmap string V) :
  insertion_order order m → Map_values order m ≡ₚ (map_to_list m).*2.
Proof.
  intros [Hnodup Hkeys].
  assert (Hperm : order ≡ₚ (map_to_list m).*1).
  { apply NoDup_Permutation; [done|apply NoDup_fst_map_to_list|].
    intros k. rewrite Hkeys, list_elem_of_fmap. split.
    - intros [v Hv]. exists (k, v). by rewrite elem_of_map_to_list.
    - intros [[k' v] [-> Hv]]. apply elem_of_map_to_list in Hv. by exists v. }
  unfold Map_values. rewrite Hperm.
  assert (Hall : ∀ l : list (string * V),
            (∀ k v, (k, v) ∈ l → m !! k = Some v) →
            omap (λ k, m !! k) l.*1 = l.*2).
  { induction l as [|[k v] l IH]; intros Hl; simpl; [done|].
    rewrite (Hl k v) by left. f_equal. apply IH.
    intros k' v' Hin. apply Hl. by right. }
  rewrite Hall; [done|]. intros k v. by rewrite elem_of_map_to_list.
Qed.

Lemma findAll_result (s : State W) (order : list string)
    (filters : option AgentFilters) :
  AgentRepository.findAll order filters s
  = (Returned (Array_sort AgentRepository.newest_spawned_first
                 (filter (λ a, passes filters a)
                    (Map_values order (agentsStore s)))), s).
Proof.
  unfold AgentRepository.findAll, bind, gets, ret. simpl. do 2 f_equal.
  rewrite !(optional_filter _ (λ a, status_tag (status a))).
  rewrite (optional_filter _ (λ a, profile_tag (profile a))).
  rewrite list_filter_filter. f_equal. apply list_filter_iff. intros a.
  unfold passes. rewrite andb_True. tauto.
Qed.

(** X8. [findAll] reads the store without changing it and returns exactly
    the stored agents that pass every filter given (a filter that is
    absent or the empty string is ignored), each once, ordered by
    [spawnedAt] with the newest first. [count] is the length of that
    list; without filters it is the number of stored agents. *)
Theorem findAll_filters_and_sorts (s : State W) (order : list string)
    (filters : option AgentFilters) :
  insertion_order order (agentsStore s) →
  ∃ l,
    AgentRepository.findAll order filters s = (Returned l, s)
    ∧ l ≡ₚ filter (λ a, passes filters a) (map_to_list (agentsStore s)).*2
    ∧ StronglySorted
        (λ a b, (Date_getTime (spawnedAt b) ≤ Date_getTime (spawnedAt a))%Z) l
    ∧ AgentRepository.count order filters s = (Returned (length l), s)
    ∧ (filters = None → length l = size (agentsStore s)).
Proof.
  intros Horder. eexists. split; [apply findAll_result|].
  pose proof (Map_values_perm order (agentsStore s) Horder) as Hvalues.
  split; [by rewrite Array_sort_perm, Hvalues|]. split.
  - eapply (@Sorted.StronglySorted_ind _
              (in_order AgentRepository.newest_spawned_first)
              (StronglySorted _)); [constructor| |].
    + intros a l Hl IH Ha. constructor; [done|].
      apply Forall_forall. intros b Hb.
      pose proof (proj1 (Forall_forall _ _) Ha b Hb) as Hab.
      unfold in_order, AgentRepository.newest_spawned_first in Hab. lia.
    + apply Array_sort_sorted;
        unfold in_order, AgentRepository.newest_spawned_first; lia.
  - split.
    + unfold AgentRepository.count, bind, ret. by rewrite findAll_result.
    + intros ->. rewrite Array_sort_perm. simpl. rewrite filter_all by done.
      by rewrite Hvalues, length_fmap, length_map_to_list.
Qed.
End Listing.

(** ** Choosing and dispatching a behaviour *)

Section Behaviours.
Context {W : Type} {bots : BotManager W}.

Lemma random_index_in_range (random : Q) (n : nat) :
  (0 <= random)%Q → (random < 1)%Q → (0 < n)%nat →
  (Z.to_nat (Qfloor (random * inject_Z (Z.of_nat n))) < n)%nat.
Proof.
  intros H0 H1 Hn.
  assert (Hpos : (0 < inject_Z (Z.of_nat n))%Q).
  { rewrite <- (Zlt_Qlt 0). lia. }
  assert (Hlo : (0 <= Qfloor (random * inject_Z (Z.of_nat n)))%Z).
  { change 0%Z with (Qfloor 0). apply Qfloor_resp_le.
    by apply Qmult_le_0_compat; [|apply Qlt_le_weak]. }
  assert (Hhi : (Qfloor (random * inject_Z (Z.of_nat n)) < Z.of_nat n)%Z).
  { rewrite Zlt_Qlt. eapply Qle_lt_trans; [apply Qfloor_le|].
    rewrite <- (Qmult_1_l (inject_Z (Z.of_nat n))) at 2.
    by apply Qmult_lt_compat_r. }
  lia.
Qed.

Lemma selectBehavior_lookup (random : Q) (profile : ProfileDefinition) :
  (0 <= random)%Q → (random < 1)%Q →
  minecraftBehaviors profile ≠ [] →
  let i := Z.to_nat (Qfloor (random
             * inject_Z (Z.of_nat (length (minecraftBehaviors profile))))) in
  (i < length (minecraftBehaviors profile))%nat
  ∧ minecraftBehaviors profile !! i
    = Some (BehaviorExecutor.selectBehavior random profile).
Proof.
  intros H0 H1 Hne i.
  assert (Hi : (i < length (minecraftBehaviors profile))%nat).
  { apply random_index_in_range; [done..|].
    destruct (minecraftBehaviors profile); [done|simpl; lia]. }
  destruct (lookup_lt_is_Some_2 _ _ Hi) as [b Hb].
  unfold BehaviorExecutor.selectBehavior. fold i. by rewrite Hb.
Qed.

(** X9. For a value of [Math.random()] in [0, 1) and a profile with at
    least one environment behaviour, [selectBehavior] returns one of the
    profile's [minecraftBehaviors]: the element at index
    [floor(random * length)], which is in range. *)
Theorem selectBehavior_in_list (random : Q) (profile : ProfileDefinition) :
  (0 <= random)%Q → (random < 1)%Q →
  minecraftBehaviors profile ≠ [] →
  let i := Z.to_nat (Qfloor (random
             * inject_Z (Z.of_nat (length (minecraftBehaviors profile))))) in
  (i < length (minecraftBehaviors profile))%nat
  ∧ minecraftBehaviors profile !! i
    = Some (BehaviorExecutor.selectBehavior random profile)
  ∧ BehaviorExecutor.selectBehavior random profile ∈ minecraftBehaviors profile.
Proof.
  intros H0 H1 Hne i.
  destruct (selectBehavior_lookup random profile H0 H1 Hne) as [Hi Hb].
  fold i in Hi, Hb. split; [done|]. split; [done|].
  by eapply list_elem_of_lookup_2.
Qed.

Lemma registry_behaviors_known (p : BehavioralProfile) :
  Forall (λ b, b ∈ BehaviorExecutor.known_behaviors)
    (minecraftBehaviors (Profiles.getProfile p)).
Proof. destruct p; apply (bool_decide_unpack _); by vm_compute. Qed.

Lemma registry_behaviors_nonempty (p : BehavioralProfile) :
  minecraftBehaviors (Profiles.getProfile p) ≠ [].
Proof. by destruct p. Qed.

Ltac declared_by p :=
  exists p; apply (bool_decide_unpack _); by vm_compute.

(** X10. The profiles and the executor agree on the environment
    behaviours: every tag in the [minecraftBehaviors] of a registered
    profile has a [case] in [executeMinecraftBehavior], which therefore
    reports success for it and changes nothing, and every [case] label is
    declared by some registered profile. A tag without a [case] is
    reported as a failure. *)
Theorem declared_behaviors_are_handled (behavior : string)
    (agent : AgentInstance) (s : State W) :
  ((∃ p, behavior ∈ minecraftBehaviors (Profiles.getProfile p))
   ↔ behavior ∈ BehaviorExecutor.known_behaviors)
  ∧ (behavior ∈ BehaviorExecutor.known_behaviors →
     BehaviorExecutor.executeMinecraftBehavior behavior agent s = (Returned true, s))
  ∧ (behavior ∉ BehaviorExecutor.known_behaviors →
     BehaviorExecutor.executeMinecraftBehavior behavior agent s = (Returned false, s)).
Proof.
  split; [split|split].
  - intros [p Hp]. apply list_elem_of_In in Hp.
    by apply (proj1 (Forall_forall _ _) (registry_behaviors_known p)).
  - intros Hknown.
    assert (Hall : Forall (λ b, ∃ p, b ∈ minecraftBehaviors (Profiles.getProfile p))
                     BehaviorExecutor.known_behaviors).
    { unfold BehaviorExecutor.known_behaviors.
      repeat (apply List.Forall_cons;
        [first [ declared_by cooperative | declared_by non_cooperator
               | declared_by confuser | declared_by resource_hoarder
               | declared_by task_abandoner | declared_by over_communicator ]|]).
      apply List.Forall_nil. }
    apply list_elem_of_In in Hknown.
    by apply (proj1 (Forall_forall _ _) Hall).
  - intros Hknown. unfold BehaviorExecutor.executeMinecraftBehavior.
    by rewrite bool_decide_eq_true_2.
  - intros Hunknown. unfold BehaviorExecutor.executeMinecraftBehavior.
    by rewrite bool_decide_eq_false_2.
Qed.
End Behaviours.

(** ** One firing of a timer *)

Section Ticks.
Context {W : Type} {bots : BotManager W}.

(** X11. A firing for an agent that is stored as [active] and whose bot
    is found performs exactly one action: one entry is appended to the
    agent's log, carrying a behaviour taken from the [minecraftBehaviors]
    of the profile and (for the six registered profiles) marked as a
    success; the record gets the new [lastActionAt] and its counter goes
    up by one. Nothing else is stored, and the scheduler is untouched. *)
Theorem tick_performs_one_action (s : State W) (h : Timeout) (inp : TickInput)
    (timer : Timer) (cur : AgentInstance) :
  timers s !! h = Some timer →
  getBot (minecraftBotId (timer_agent timer)) (world s) = Returned true →
  agentsStore s !! agentId (timer_agent timer) = Some cur →
  agentId cur = agentId (timer_agent timer) →
  status cur = active →
  (0 <= tick_random inp)%Q → (tick_random inp < 1)%Q →
  let behavior :=
    BehaviorExecutor.selectBehavior (tick_random inp)
      (Profiles.getProfile (profile (timer_agent timer))) in
  let entry := {|
    actionId := tick_actionId inp;
    action_agentId := agentId cur;
    actionType := behavior;
    timestamp := tick_timestamp inp;
    success := true;
    notes := Some ("Executed " +:+ behavior) |} in
  let r := BehaviorExecutor.tick h inp s in
  behavior ∈ minecraftBehaviors (Profiles.getProfile (profile (timer_agent timer)))
  ∧ r.1 = Returned tt
  ∧ actionsStore r.2
    = <[agentId cur := default [] (actionsStore s !! agentId cur) ++ [entry]]>
        (actionsStore s)
  ∧ agentsStore r.2
    = <[agentId cur := spread cur (patch_stats (tick_now inp) (actionCount cur + 1))]>
        (agentsStore s)
  ∧ scheduler_view r.2 = scheduler_view s
  ∧ world r.2 = world s
  ∧ disconnects r.2 = disconnects s.
Proof.
  intros Htimer Hbot Hcur Hkey Hactive H0 H1 behavior entry r.
  destruct (selectBehavior_lookup (tick_random inp)
              (Profiles.getProfile (profile (timer_agent timer))) H0 H1
              (registry_behaviors_nonempty _)) as [_ Hin].
  apply list_elem_of_lookup_2 in Hin. fold behavior in Hin. split; [done|].
  assert (Hknown : behavior ∈ BehaviorExecutor.known_behaviors).
  { apply list_elem_of_In in Hin.
    by apply (proj1 (Forall_forall _ _)
                (registry_behaviors_known (profile (timer_agent timer)))). }
  subst r. unfold BehaviorExecutor.tick, BehaviorExecutor.executeBehavior,
    BehaviorExecutor.executeMinecraftBehavior, BehaviorExecutor.logAction.
  unfold_async. simpl. rewrite Htimer. simpl. rewrite Hbot. simpl.
  rewrite Hcur. simpl. rewrite bool_decide_eq_false_2 by (by rewrite Hactive; intros []).
  fold behavior. rewrite bool_decide_eq_true_2 by done. simpl.
  rewrite Hkey, Hcur. simpl. by rewrite <- Hkey.
Qed.

(** X12. A firing does nothing at all, and does not fail, when the handle
    is not a timer that is set, when the bot of the captured agent is not
    found or [getBot] throws, when the agent has no record any more, or
    when its stored status is not [active]: paused, terminated and deleted
    agents never act. *)
Theorem tick_skips (s : State W) (h : Timeout) (inp : TickInput) :
  (∀ timer, timers s !! h = Some timer →
     getBot (minecraftBotId (timer_agent timer)) (world s) ≠ Returned true
     ∨ stored_status (agentId (timer_agent timer)) s ≠ Some active) →
  BehaviorExecutor.tick h inp s = (Returned tt, s).
Proof.
  intros Hskip. unfold BehaviorExecutor.tick, BehaviorExecutor.executeBehavior.
  unfold_async. simpl. destruct (timers s !! h) as [timer|]; [|done]. simpl.
  specialize (Hskip timer eq_refl). unfold stored_status in Hskip.
  destruct (getBot _ _) as [[]|]; simpl; try done.
  destruct Hskip as [Hbot|Hstatus]; [done|].
  destruct (agentsStore s !! agentId (timer_agent timer)) as [cur|];
    simpl in *; [|done].
  case_bool_decide as Hst; [done|]. destruct Hstatus. f_equal.
  by destruct (decide (status cur = active)).
Qed.
End Ticks.

(** ** Starting and stopping loops *)

Section StartStop.
Context {W : Type} {bots : BotManager W}.

(** X13. Stopping undoes starting, except that the handle is used up:
    when an agent without a loop is started and then stopped, the timers
    and the executor map are as before, and the next handle is a new one.
    Stopping an agent that has no loop changes nothing, so stopping twice
    is stopping once. *)
Theorem stop_undoes_initialize (s : State W) (agent : AgentInstance) :
  activeExecutors s !! agentId agent = None →
  timers s !! nextTimeout s = None →
  let started := (BehaviorExecutor.initialize agent s).2 in
  let r := BehaviorExecutor.stop (agentId agent) started in
  activeExecutors started !! agentId agent = Some (nextTimeout s)
  ∧ r.1 = Returned tt
  ∧ timers r.2 = timers s
  ∧ activeExecutors r.2 = activeExecutors s
  ∧ nextTimeout r.2 = S (nextTimeout s)
  ∧ agentsStore r.2 = agentsStore s
  ∧ actionsStore r.2 = actionsStore s
  ∧ BehaviorExecutor.stop (agentId agent) r.2 = (Returned tt, r.2)
  ∧ BehaviorExecutor.stop (agentId agent) s = (Returned tt, s).
Proof.
  intros Hnone Hfree started r. subst started r. unfold_async. simpl.
  rewrite !lookup_insert_eq. simpl. rewrite lookup_delete_eq.
  rewrite !delete_insert_id by done. by rewrite Hnone.
Qed.

(** X14. Stopping one agent's loop leaves every other agent's loop as it
    is: another agent keeps its handle, and its timer stays set with the
    same captured agent and the same period. Records and logs are not
    touched. *)
Theorem stop_leaves_other_loops (s : State W) (id other : string) (h : Timeout) :
  timers_registered s →
  other ≠ id →
  activeExecutors s !! other = Some h →
  let r := BehaviorExecutor.stop id s in
  activeExecutors r.2 !! other = Some h
  ∧ timers r.2 !! h = timers s !! h
  ∧ is_Some (timers r.2 !! h)
  ∧ agentsStore r.2 = agentsStore s
  ∧ actionsStore r.2 = actionsStore s.
Proof.
  intros [Hset Hreg] Hne Hother r. subst r.
  destruct (Hreg other h Hother) as (t & Ht & Htid).
  unfold_async. simpl.
  destruct (activeExecutors s !! id) as [h'|] eqn:Hid; simpl.
  - assert (Hh : h' ≠ h).
    { intros ->. destruct (Hreg id h Hid) as (t' & Ht' & Htid').
      rewrite Ht in Ht'. injection Ht' as <-. by rewrite Htid in Htid'. }
    rewrite lookup_delete_ne by done. rewrite lookup_delete_ne by done.
    rewrite Ht. eauto.
  - rewrite Ht. eauto.
Qed.
End StartStop.

(** ** Transitions, again *)

Section TransitionsMore.
Context {W : Type} {bots : BotManager W}.

Lemma stop_rest (id : string) (s : State W) :
  nextTimeout (BehaviorExecutor.stop id s).2 = nextTimeout s
  ∧ actionsStore (BehaviorExecutor.stop id s).2 = actionsStore s
  ∧ world (BehaviorExecutor.stop id s).2 = world s
  ∧ disconnects (BehaviorExecutor.stop id s).2 = disconnects s.
Proof. unfold_async. simpl. by destruct (activeExecutors s !! id). Qed.

Lemma initialize_rest (agent : AgentInstance) (s : State W) :
  agentsStore (BehaviorExecutor.initialize agent s).2 = agentsStore s
  ∧ actionsStore (BehaviorExecutor.initialize agent s).2 = actionsStore s
  ∧ world (BehaviorExecutor.initialize agent s).2 = world s
  ∧ disconnects (BehaviorExecutor.initialize agent s).2 = disconnects s.
Proof. by unfold_async. Qed.

Lemma then_console_state {A} (m : Async W A) (line : string) (s : State W) :
  (bind m (λ _, console line) s).2 = (m s).2.
Proof. unfold bind, console, ret. by destruct (m s) as [[?|?] ?]. Qed.

Lemma handleResume_rest (agent : AgentInstance) (s : State W) :
  actionsStore (LifecycleManager.handleResume agent s).2 = actionsStore s
  ∧ world (LifecycleManager.handleResume agent s).2 = world s
  ∧ disconnects (LifecycleManager.handleResume agent s).2 = disconnects s.
Proof. unfold_async. simpl. by case_bool_decide. Qed.

(** The stored agents after a transition, whatever the requested status. *)
Lemma transition_agentsStore (s : State W) (id : string) (newStatus : AgentStatus) :
  agentsStore (LifecycleManager.transitionStatus id newStatus s).2
  = match agentsStore s !! id with
    | Some agent => <[id := spread agent (patch_status newStatus)]> (agentsStore s)
    | None => agentsStore s
    end.
Proof.
  destruct (agentsStore s !! id) as [agent|] eqn:Hsome.
  2: { by rewrite transitionStatus_missing. }
  rewrite (transitionStatus_found _ _ _ _ Hsome).
  destruct newStatus; try done.
  - by destruct (handleResume_returns agent (status_written id agent active s))
      as (_ & _ & ->).
  - unfold LifecycleManager.handlePause.
    by rewrite then_console_state, stop_agentsStore.
  - by destruct (handleTermination_stores agent
                   (status_written id agent terminated s)) as (-> & _).
  - unfold LifecycleManager.handleError.
    by rewrite then_console_state, stop_agentsStore.
Qed.

(** X15. Pausing an agent and resuming it leaves it with exactly one
    loop: after the pause it has none and is stored as [paused]; after the
    resume it is stored as [active] and registered under a new handle,
    whose timer captures the record as it was read (still [paused]) and
    runs at the period of the agent's profile. No timer of an earlier loop
    of the agent is left, and the bot manager is never called. *)
Theorem pause_then_resume_restarts (s : State W) (id : string)
    (agent : AgentInstance) :
  agentsStore s !! id = Some agent →
  agentId agent = id →
  timers_registered s →
  let halted := (LifecycleManager.transitionStatus id paused s).2 in
  let r := LifecycleManager.transitionStatus id active halted in
  let captured := spread agent (patch_status paused) in
  (¬ has_loop id halted ∧ stored_status id halted = Some paused)
  ∧ r.1 = Returned tt
  ∧ stored_status id r.2 = Some active
  ∧ activeExecutors r.2 !! id = Some (nextTimeout s)
  ∧ timers r.2 !! nextTimeout s
    = Some (mkTimer captured
              (BehaviorExecutor.calculateInterval
                 (actionFrequency (Profiles.getProfile (profile agent)))))
  ∧ (∀ h t, timers r.2 !! h = Some t → agentId (timer_agent t) = id →
            h = nextTimeout s)
  ∧ world r.2 = world s
  ∧ disconnects r.2 = disconnects s.
Proof.
  intros Hsome Hid Hreg halted r captured.
  assert (Hhalted : halted = (BehaviorExecutor.stop id
                                (status_written id agent paused s)).2).
  { unfold halted. rewrite (transitionStatus_found _ _ _ _ Hsome).
    unfold LifecycleManager.handlePause. apply then_console_state. }
  set (s1 := status_written id agent paused s) in Hhalted.
  destruct (stop_rest id s1) as (Hnext & _ & Hworld & Hdisc).
  assert (Hcaptured : agentsStore halted !! id = Some captured).
  { rewrite Hhalted, stop_agentsStore. apply lookup_insert_eq. }
  assert (Hnoloop : activeExecutors halted !! id = None).
  { rewrite Hhalted, stop_activeExecutors. apply lookup_delete_eq. }
  split.
  { split; [unfold has_loop; rewrite Hnoloop; by intros [? ?]|].
    unfold stored_status. by rewrite Hcaptured. }
  assert (Hr : r.2 = (BehaviorExecutor.initialize captured
                        (status_written id captured active halted)).2).
  { unfold r. rewrite (transitionStatus_found _ _ _ _ Hcaptured).
    rewrite handleResume_state. simpl. rewrite <- Hid in Hnoloop.
    rewrite bool_decide_eq_false_2; [done|]. rewrite Hnoloop. by intros [? ?]. }
  destruct (transitionStatus_returns halted id captured active Hcaptured)
    as [Hret Hstored]. fold r in Hret, Hstored.
  split; [done|]. split; [unfold stored_status; by rewrite Hstored|].
  destruct (initialize_timer captured (status_written id captured active halted))
    as [Hex Htimer]. rewrite <- Hr in Hex, Htimer. simpl in Hex, Htimer.
  rewrite Hhalted, Hnext in Hex, Htimer. simpl in Hex, Htimer.
  rewrite Hid in Hex. split; [done|]. split; [done|]. split.
  - intros h t Ht Htid.
    assert (Hregr : timers_registered r.2).
    { apply transition_registered. by apply transition_registered. }
    destruct Hregr as [Hset _]. destruct (Hset h t Ht) as [_ Hh].
    rewrite Htid, Hex in Hh. by injection Hh.
  - rewrite Hr.
    destruct (initialize_rest captured (status_written id captured active halted))
      as (_ & _ & -> & ->). simpl. by rewrite Hhalted, Hworld, Hdisc.
Qed.

(** X16. [idle] and [spawning] have no [case] in [transitionStatus]: a
    transition to either of them only writes the status. The scheduler is
    not told, so a loop that was running goes on running for an agent that
    is no longer stored as [active]. *)
Theorem transition_without_case (s : State W) (id : string)
    (agent : AgentInstance) (newStatus : AgentStatus) :
  agentsStore s !! id = Some agent →
  newStatus = idle ∨ newStatus = spawning →
  let r := LifecycleManager.transitionStatus id newStatus s in
  r.1 = Returned tt
  ∧ stored_status id r.2 = Some newStatus
  ∧ stored_status id r.2 ≠ Some active
  ∧ (has_loop id s → has_loop id r.2)
  ∧ scheduler_view r.2 = scheduler_view s
  ∧ actionsStore r.2 = actionsStore s
  ∧ world r.2 = world s
  ∧ disconnects r.2 = disconnects s.
Proof.
  intros Hsome Hcase r. subst r. rewrite (transitionStatus_found _ _ _ _ Hsome).
  unfold stored_status, has_loop.
  destruct Hcase as [-> | ->]; simpl; by rewrite lookup_insert_eq.
Qed.

(** X17. Only a termination reaches the bot manager. A transition to any
    other status leaves the bot manager and the list of disconnect calls
    as they were; a termination calls [disconnectBot] at most once, for
    the bot of the agent, and only when [getBot] finds that bot. *)
Theorem only_termination_disconnects (s : State W) (id : string)
    (newStatus : AgentStatus) :
  let r := LifecycleManager.transitionStatus id newStatus s in
  (newStatus ≠ terminated →
   world r.2 = world s ∧ disconnects r.2 = disconnects s)
  ∧ (disconnects r.2 = disconnects s
     ∨ ∃ agent, agentsStore s !! id = Some agent
                ∧ newStatus = terminated
                ∧ getBot (minecraftBotId agent) (world s) = Returned true
                ∧ disconnects r.2 = disconnects s ++ [minecraftBotId agent]).
Proof.
  intros r. subst r. destruct (agentsStore s !! id) as [agent|] eqn:Hsome.
  2: { rewrite transitionStatus_missing by done. by split; [|left]. }
  rewrite (transitionStatus_found _ _ _ _ Hsome).
  set (s1 := status_written id agent newStatus s).
  destruct newStatus.
  - by split; [|left].
  - by split; [|left].
  - destruct (handleResume_rest agent s1) as (_ & -> & ->). by split; [|left].
  - unfold LifecycleManager.handlePause. rewrite then_console_state.
    destruct (stop_rest id s1) as (_ & _ & -> & ->). by split; [|left].
  - split; [done|]. unfold_async. simpl.
    destruct (activeExecutors s !! agentId agent); simpl;
      destruct (getBot (minecraftBotId agent) (world s)) as [[]|] eqn:Hbot;
      simpl; try (by left);
      destruct (disconnectBot _ _) as [[[]|] w]; simpl; right; by exists agent.
  - unfold LifecycleManager.handleError. rewrite then_console_state.
    destruct (stop_rest (agentId agent) s1) as (_ & _ & -> & ->).
    by split; [|left].
Qed.
End TransitionsMore.

(** ** Records over a run *)

Section Runs.
Context {W : Type} {bots : BotManager W}.

Lemma same_agent_later_refl (a : AgentInstance) : same_agent_later a a.
Proof. by repeat split. Qed.

Lemma same_agent_later_trans (a b c : AgentInstance) :
  same_agent_later a b → same_agent_later b c → same_agent_later a c.
Proof.
  intros (? & ? & ? & ? & ? & ?) (? & ? & ? & ? & ? & ?).
  repeat split; try congruence. lia.
Qed.

Lemma tick_record (s : State W) (h : Timeout) (inp : TickInput) (id : string)
    (a : AgentInstance) :
  keyed s → agentsStore s !! id = Some a →
  ∃ a', agentsStore (BehaviorExecutor.tick h inp s).2 !! id = Some a'
        ∧ (a' = a ∨ a' = spread a (patch_stats (tick_now inp) (actionCount a + 1))).
Proof.
  intros Hkeyed Ha.
  unfold BehaviorExecutor.tick, BehaviorExecutor.executeBehavior,
    BehaviorExecutor.executeMinecraftBehavior, BehaviorExecutor.logAction.
  unfold_async. simpl. destruct (timers s !! h) as [timer|]; simpl; [|eauto].
  destruct (getBot _ _) as [[]|]; simpl; [|eauto..].
  destruct (agentsStore s !! agentId (timer_agent timer)) as [cur|] eqn:Hcur;
    simpl; [|eauto].
  case_bool_decide; simpl; [eauto|].
  assert (Hkey : agentId cur = agentId (timer_agent timer)) by by apply Hkeyed.
  case_bool_decide; simpl; rewrite Hkey, Hcur; simpl;
    (destruct (decide (agentId (timer_agent timer) = id)) as [Heq|Hne];
     [ rewrite Heq in *; rewrite lookup_insert_eq;
       assert (cur = a) as -> by congruence; eauto
     | rewrite lookup_insert_ne by done; eauto ]).
Qed.

Lemma createAgent_other_records (config : AgentConfig) (inp : SpawnInput)
    (s : State W) (id : string) :
  id ≠ spawn_agentId inp →
  agentsStore (AgentService.createAgent config inp s).2 !! id = agentsStore s !! id.
Proof.
  intros Hne. unfold AgentService.createAgent, AgentService.call_createBot.
  unfold bind at 1.
  destruct (createBot _ _ _ _ _) as [[botId|msg] w]; [|by simpl].
  unfold_async. simpl. rewrite lookup_insert_eq. simpl.
  by rewrite !lookup_insert_ne.
Qed.

Lemma discard_state {A} (m : Async W A) (s : State W) :
  (discard m s).2 = (m s).2.
Proof. unfold discard, bind, ret. by destruct (m s) as [[?|?] ?]. Qed.

Lemma after_record (op : Operation) (s : State W) (id : string) (a : AgentInstance) :
  keyed s → fresh_identifier op s → agentsStore s !! id = Some a →
  ∃ a', agentsStore (after op s) !! id = Some a' ∧ same_agent_later a a'.
Proof.
  intros Hkeyed Hfresh Ha.
  assert (Htransition : ∀ j st,
            ∃ a', agentsStore (LifecycleManager.transitionStatus j st s).2 !! id
                  = Some a' ∧ same_agent_later a a').
  { intros j st. rewrite transition_agentsStore.
    destruct (agentsStore s !! j) as [b|] eqn:Hb.
    - destruct (decide (j = id)) as [->|Hne].
      + rewrite lookup_insert_eq. assert (b = a) as -> by congruence.
        eexists. split; [done|]. by repeat split.
      + rewrite lookup_insert_ne by done. eauto using same_agent_later_refl.
    - eauto using same_agent_later_refl. }
  unfold after. destruct op; simpl; try apply Htransition.
  - rewrite discard_state, createAgent_other_records.
    + eauto using same_agent_later_refl.
    + simpl in Hfresh. congruence.
  - destruct (tick_record s h inp id a Hkeyed Ha) as (a' & Ha' & [->| ->]).
    + eauto using same_agent_later_refl.
    + eexists. split; [done|]. repeat split; simpl; lia.
Qed.

(** X18. Over any run of operations in which every spawn draws a fresh
    identifier, a record is never lost and never rewound: an agent that
    has a record keeps one, with the same identifier, profile, bot,
    prompt and spawn time, and with an action counter at least as large
    as before. *)
Theorem records_persist_and_counters_grow (ops : list Operation) (s : State W)
    (id : string) (a : AgentInstance) :
  consistent s →
  fresh_run ops s →
  agentsStore s !! id = Some a →
  ∃ a', agentsStore (after_all ops s) !! id = Some a' ∧ same_agent_later a a'.
Proof.
  revert s a. induction ops as [|op ops IH]; intros s a Hcons Hfresh Ha; simpl.
  - eauto using same_agent_later_refl.
  - destruct Hfresh as [Hop Hrest].
    destruct (after_record op s id a (proj1 Hcons) Hop Ha) as (b & Hb & Hab).
    destruct (IH (after op s) b (after_consistent op s Hcons) Hrest Hb)
      as (c & Hc & Hbc).
    eauto using same_agent_later_trans.
Qed.
End Runs.

(** ** Terminating every active agent *)

Section Cleanup.
Context {W : Type} {bots : BotManager W} `{!DateParse}.

Lemma transition_keyed (s : State W) (id : string) (newStatus : AgentStatus) :
  keyed s → keyed (LifecycleManager.transitionStatus id newStatus s).2.
Proof.
  intros Hkeyed j b. rewrite transition_agentsStore.
  destruct (agentsStore s !! id) as [a|] eqn:Ha; [|apply Hkeyed].
  destruct (decide (id = j)) as [->|Hne].
  - rewrite lookup_insert_eq. intros [= <-]. simpl. by apply Hkeyed.
  - rewrite lookup_insert_ne by done. apply Hkeyed.
Qed.

Lemma terminate_one (s : State W) (a : AgentInstance) :
  keyed s →
  agentsStore s !! agentId a = Some a →
  let r := LifecycleManager.transitionStatus (agentId a) terminated s in
  r.1 = Returned tt
  ∧ agentsStore r.2 = <[agentId a := spread a (patch_status terminated)]> (agentsStore s)
  ∧ activeExecutors r.2 = delete (agentId a) (activeExecutors s)
  ∧ actionsStore r.2 = actionsStore s.
Proof.
  intros Hkeyed Ha r. subst r.
  destruct (transitionStatus_returns s _ a terminated Ha) as [Hret _].
  split; [done|]. rewrite transition_agentsStore, Ha. split; [done|].
  rewrite (transitionStatus_found _ _ _ _ Ha).
  by destruct (handleTermination_stores a
                 (status_written (agentId a) a terminated s)) as (_ & -> & ->).
Qed.

Lemma bind_returned {A B} (m : Async W A) (k : A → Async W B) (s s1 : State W)
    (a : A) :
  m s = (Returned a, s1) → bind m k s = k a s1.
Proof. intros Hm. unfold bind. by rewrite Hm. Qed.

Lemma elem_of_cons_decide (id : string) (x : string) (ids : list string) :
  bool_decide (id ∈ x :: ids)
  = if decide (id = x) then true else bool_decide (id ∈ ids).
Proof.
  destruct (decide (id = x)) as [->|Hne].
  - apply bool_decide_eq_true_2. left.
  - apply bool_decide_ext. rewrite elem_of_cons.
    split; [by intros [?|?]|by right].
Qed.

(** What the loop of [cleanupAll] does with a list of stored agents. *)
Lemma terminate_each_stored (l : list AgentInstance) (s : State W) :
  keyed s →
  (∀ a, a ∈ l → ∃ b, agentsStore s !! agentId a = Some b) →
  let r := LifecycleManager.terminate_each l s in
  r.1 = Returned tt
  ∧ (∀ id, agentsStore r.2 !! id
           = if bool_decide (id ∈ agentId <$> l)
             then (λ b, spread b (patch_status terminated)) <$> agentsStore s !! id
             else agentsStore s !! id)
  ∧ (∀ id, activeExecutors r.2 !! id
           = if bool_decide (id ∈ agentId <$> l) then None
             else activeExecutors s !! id)
  ∧ actionsStore r.2 = actionsStore s.
Proof.
  revert s. induction l as [|a l IH]; intros s Hkeyed Hstored r; subst r.
  { simpl. repeat split; intros; by rewrite bool_decide_eq_false_2 by set_solver. }
  destruct (Hstored a) as [b Hb]; [left|].
  assert (Hid : agentId b = agentId a) by by apply Hkeyed.
  rewrite <- Hid in Hb.
  destruct (terminate_one s b Hkeyed Hb) as (Hret & Hagents & Hexec & Hlog).
  rewrite Hid in Hb, Hret, Hagents, Hexec, Hlog.
  pose proof (transition_keyed s (agentId a) terminated Hkeyed) as Hkeyed1.
  destruct (LifecycleManager.transitionStatus (agentId a) terminated s)
    as [res s1] eqn:E. simpl in Hret, Hagents, Hexec, Hlog, Hkeyed1. subst res.
  change (LifecycleManager.terminate_each (a :: l) s)
    with (bind (LifecycleManager.transitionStatus (agentId a) terminated)
            (λ _, LifecycleManager.terminate_each l) s).
  rewrite (bind_returned _ _ _ _ _ E).
  destruct (IH s1 Hkeyed1) as (Hr & Ha1 & He1 & Hl1).
  { intros c Hc. destruct (Hstored c) as [d Hd]; [by right|].
    rewrite Hagents. destruct (decide (agentId a = agentId c)) as [->|Hne].
    - rewrite lookup_insert_eq. eauto.
    - rewrite lookup_insert_ne by done. eauto. }
  rewrite fmap_cons.
  split; [done|]. split; [|split; [|by rewrite Hl1]].
  - intros id. rewrite Ha1, Hagents, elem_of_cons_decide.
    destruct (decide (id = agentId a)) as [->|Hne].
    + rewrite lookup_insert_eq, Hb. simpl. by case_bool_decide.
    + by rewrite lookup_insert_ne.
  - intros id. rewrite He1, Hexec, elem_of_cons_decide.
    destruct (decide (id = agentId a)) as [->|Hne].
    + rewrite lookup_delete_eq. by case_bool_decide.
    + by rewrite lookup_delete_ne.
Qed.

Lemma status_tag_active (st : AgentStatus) : status_tag st = "active" ↔ st = active.
Proof. by destruct st. Qed.

(** X19. [cleanupAll] terminates every agent that is stored as [active]
    and touches no other: it returns normally, each active record gets
    status [terminated] and loses its loop, every other record is as
    before, and the logs are kept. Afterwards no agent is stored as
    [active]; and if loops had followed the stored status, no loop is
    left at all. *)
Theorem cleanupAll_terminates_active_agents (s : State W) (order : list string) :
  insertion_order order (agentsStore s) →
  keyed s →
  let r := LifecycleManager.cleanupAll order s in
  r.1 = Returned tt
  ∧ (∀ id, agentsStore r.2 !! id
           = (λ a, if bool_decide (status a = active)
                   then spread a (patch_status terminated) else a)
             <$> agentsStore s !! id)
  ∧ (∀ id, stored_status id r.2 ≠ Some active)
  ∧ (∀ id, stored_status id s = Some active → ¬ has_loop id r.2)
  ∧ (∀ id, stored_status id s ≠ Some active →
           activeExecutors r.2 !! id = activeExecutors s !! id)
  ∧ (loops_follow_status s → activeExecutors r.2 = ∅)
  ∧ actionsStore r.2 = actionsStore s.
Proof.
  intros Horder Hkeyed r. subst r. unfold LifecycleManager.cleanupAll.
  rewrite (bind_returned _ _ _ _ _ (findAll_result s order _)).
  set (l := Array_sort _ _).
  assert (Hl : ∀ a, a ∈ l ↔ agentsStore s !! agentId a = Some a ∧ status a = active).
  { intros a. unfold l. rewrite Array_sort_perm, list_elem_of_filter.
    unfold Map_values. rewrite list_elem_of_omap. unfold passes. simpl.
    rewrite andb_True, bool_decide_spec, status_tag_active. split.
    - intros [[Hst _] (k & Hk & Ha)]. pose proof (Hkeyed k a Ha) as Hid.
      by rewrite Hid.
    - intros [Ha Hst]. split; [done|]. exists (agentId a). split; [|done].
      apply Horder. by rewrite Ha. }
  assert (Hids : ∀ id, id ∈ agentId <$> l ↔ stored_status id s = Some active).
  { intros id. rewrite list_elem_of_fmap. unfold stored_status. split.
    - intros (a & -> & Ha). apply Hl in Ha as [Ha Hst]. by rewrite Ha, <- Hst.
    - intros Hst. destruct (agentsStore s !! id) as [a|] eqn:Ha; [|done].
      injection Hst as Hst. pose proof (Hkeyed id a Ha) as Hid.
      exists a. split; [done|]. apply Hl. by rewrite Hid. }
  destruct (terminate_each_stored l s Hkeyed) as (Hret & Hagents & Hexec & Hlog).
  { intros a Ha. apply Hl in Ha as [Ha _]. eauto. }
  simpl in Hret, Hagents, Hexec, Hlog.
  destruct (LifecycleManager.terminate_each l s) as [res s'] eqn:E.
  simpl in Hret, Hagents, Hexec, Hlog. subst res.
  rewrite (bind_returned _ _ _ _ _ E). unfold console, ret. simpl.
  assert (Hstored : ∀ id, agentsStore s' !! id
            = (λ a, if bool_decide (status a = active)
                    then spread a (patch_status terminated) else a)
              <$> agentsStore s !! id).
  { intros id. rewrite Hagents. specialize (Hids id). unfold stored_status in Hids.
    destruct (agentsStore s !! id) as [a|]; simpl in *; [|by case_bool_decide].
    case_bool_decide as Hin.
    - apply Hids in Hin. injection Hin as ->. by rewrite bool_decide_eq_true_2.
    - rewrite bool_decide_eq_false_2; [done|]. intros Hst. apply Hin, Hids.
      by rewrite Hst. }
  split; [done|]. split; [done|]. split; [|split; [|split; [|split]]].
  - intros id. unfold stored_status. rewrite Hstored.
    destruct (agentsStore s !! id) as [a|]; simpl; [|done].
    case_bool_decide as Hst; [done|]. by intros [= ?].
  - intros id Hst. unfold has_loop. rewrite Hexec.
    rewrite bool_decide_eq_true_2 by by apply Hids. by intros [? ?].
  - intros id Hst. rewrite Hexec. rewrite bool_decide_eq_false_2; [done|].
    by rewrite Hids.
  - intros Hloops. apply map_eq. intros id. rewrite Hexec, lookup_empty.
    case_bool_decide as Hin; [done|].
    destruct (activeExecutors s !! id) as [h|] eqn:Hh; [|done].
    destruct Hin. apply Hids, Hloops. unfold has_loop. rewrite Hh. eauto.
  - done.
Qed.
End Cleanup.

(** ** The health check *)

Section Health.
Context {W : Type} {bots : BotManager W} `{!DateParse}.

Lemma stale_after_five_minutes (elapsed : Z) :
  negb (Qle_bool (inject_Z elapsed / (1000 * 60)) 5) = true
  ↔ (300000 < elapsed)%Z.
Proof.
  rewrite negb_true_iff, <- not_true_iff_false, Qle_bool_iff.
  unfold Qle, Qdiv, Qmult, Qinv, inject_Z. simpl. lia.
Qed.

(** The list of issues for a stored agent, as [getHealthStatus] builds it. *)
Lemma getHealthStatus_found (s : State W) (now : Z) (id : string)
    (agent : AgentInstance) (found : bool) :
  agentsStore s !! id = Some agent →
  getBot (minecraftBotId agent) (world s) = Returned found →
  ∃ l, LifecycleManager.getHealthStatus now id s
       = (Returned (mkHealth (bool_decide (length l = 0%nat)) l), s)
       ∧ l = (if found then [] else ["Minecraft bot not found"])
             ++ (if bool_decide (status agent = active)
                    && negb (bool_decide (is_Some (activeExecutors s !! id)))
                 then ["Behavior executor not running"] else [])
             ++ (match lastActionAt agent with
                 | Some last =>
                     if truthy last
                        && negb (Qle_bool (inject_Z (now - Date_getTime last)
                                           / (1000 * 60)) 5)
                        && bool_decide (status agent = active)
                     then ["No actions in the last 5 minutes"] else []
                 | None => []
                 end).
Proof.
  intros Hsome Hbot. eexists. split.
  - unfold LifecycleManager.getHealthStatus, AgentRepository.findById,
      BehaviorExecutor.call_getBot, BehaviorExecutor.isRunning, bind, gets, ret.
    simpl. rewrite Hsome, Hbot. reflexivity.
  - destruct found, (bool_decide (status agent = active)),
      (bool_decide (is_Some (activeExecutors s !! id))),
      (lastActionAt agent) as [last|]; simpl; try done;
      destruct (truthy last); simpl; try done;
      by destruct (Qle_bool _ _).
Qed.

(** X20. The health check only reads: the state after it is the state
    before it, also when [getBot] throws (the exception reaches the
    caller). The verdict is healthy exactly when no issue is listed, and
    an unknown identifier gives the single issue [Agent not found]. *)
Theorem getHealthStatus_reads_only (s : State W) (now : Z) (id : string) :
  let r := LifecycleManager.getHealthStatus now id s in
  r.2 = s
  ∧ (∀ h, r.1 = Returned h → (healthy h = true ↔ issues h = []))
  ∧ (agentsStore s !! id = None →
     r.1 = Returned (mkHealth false ["Agent not found"]))
  ∧ (∀ agent e, agentsStore s !! id = Some agent →
       getBot (minecraftBotId agent) (world s) = Thrown e → r.1 = Thrown e).
Proof.
  intros r. subst r. destruct (agentsStore s !! id) as [agent|] eqn:Hsome.
  - destruct (getBot (minecraftBotId agent) (world s)) as [found|e] eqn:Hbot.
    + destruct (getHealthStatus_found s now id agent found Hsome Hbot)
        as (l & -> & _). simpl. split; [done|]. split; [|split; [done|]].
      * intros h [= <-]. simpl. rewrite bool_decide_eq_true.
        by destruct l; split.
      * intros ? ? [= <-] Hthrown. by rewrite Hbot in Hthrown.
    + unfold LifecycleManager.getHealthStatus, AgentRepository.findById,
        BehaviorExecutor.call_getBot, bind, gets, ret. simpl.
      rewrite Hsome, Hbot. simpl. split; [done|]. split; [done|].
      split; [done|]. intros ? ? [= <-] Hthrown.
      rewrite Hbot in Hthrown. by injection Hthrown as ->.
  - unfold LifecycleManager.getHealthStatus, AgentRepository.findById,
      bind, gets, ret. simpl. rewrite Hsome. simpl.
    split; [done|]. split; [|done]. by intros h [= <-].
Qed.

(** X21. For a stored agent whose bot lookup answers, each issue is
    reported exactly when its cause holds: the bot is missing; the agent
    is stored as [active] without a loop; the agent is stored as [active]
    and more than 300000 ms have passed since a non-empty [lastActionAt]
    (exactly five minutes is not yet stale). An agent that is not
    [active] is healthy as soon as its bot is found, and in a state where
    loops follow the stored status the executor is never reported as not
    running. *)
Theorem health_issues_and_causes (s : State W) (now : Z) (id : string)
    (agent : AgentInstance) (found : bool) :
  agentsStore s !! id = Some agent →
  getBot (minecraftBotId agent) (world s) = Returned found →
  ∃ h, (LifecycleManager.getHealthStatus now id s).1 = Returned h
    ∧ ("Minecraft bot not found" ∈ issues h ↔ found = false)
    ∧ ("Behavior executor not running" ∈ issues h
       ↔ status agent = active ∧ ¬ has_loop id s)
    ∧ ("No actions in the last 5 minutes" ∈ issues h
       ↔ status agent = active
         ∧ ∃ last, lastActionAt agent = Some last ∧ last ≠ ""
                   ∧ (300000 < now - Date_getTime last)%Z)
    ∧ (status agent ≠ active → healthy h = found)
    ∧ (loops_follow_status s → "Behavior executor not running" ∉ issues h).
Proof.
  intros Hsome Hbot.
  destruct (getHealthStatus_found s now id agent found Hsome Hbot)
    as (l & -> & Hl).
  eexists. split; [done|]. simpl.
  assert (Hexec : "Behavior executor not running" ∈ l
                  ↔ status agent = active ∧ ¬ has_loop id s).
  { rewrite Hl. unfold has_loop.
    destruct found; case_bool_decide as Hst; case_bool_decide as Hrun;
      destruct (lastActionAt agent) as [last|]; simpl;
      try destruct (_ && _ && _); set_solver. }
  split; [|split; [done|split; [|split]]].
  - rewrite Hl. destruct found; case_bool_decide; case_bool_decide;
      destruct (lastActionAt agent) as [last|]; simpl;
      try destruct (_ && _ && _); set_solver.
  - rewrite Hl. destruct (lastActionAt agent) as [last|] eqn:Hlast.
    + assert (Hcond : truthy last
                      && negb (Qle_bool (inject_Z (now - Date_getTime last)
                                         / (1000 * 60)) 5)
                      && bool_decide (status agent = active) = true
                      ↔ status agent = active
                        ∧ ∃ last', Some last = Some last' ∧ last' ≠ ""
                                   ∧ (300000 < now - Date_getTime last')%Z).
      { rewrite !andb_true_iff, bool_decide_eq_true, stale_after_five_minutes.
        unfold truthy. rewrite bool_decide_eq_true. split.
        - intros [[? ?] ?]. eauto.
        - intros [? (? & [= <-] & ? & ?)]. done. }
      rewrite <- Hcond.
      destruct (_ && _ && _); destruct found; case_bool_decide; case_bool_decide;
        simpl; set_solver.
    + destruct found; case_bool_decide; case_bool_decide; simpl;
        split; try set_solver; by intros [_ (? & ? & _)].
  - intros Hst. subst l.
    destruct (bool_decide (status agent = active)) eqn:E;
      [by apply bool_decide_eq_true_1 in E|]. simpl.
    destruct found, (lastActionAt agent) as [last|]; simpl; try done;
      by rewrite !andb_false_r.
  - intros Hloops. rewrite Hexec. intros [Hst Hno]. apply Hno, Hloops.
    unfold stored_status. rewrite Hsome. simpl. by rewrite Hst.
Qed.
End Health.

(** ** Validating a profile identifier *)

(** X22. [profileExists] uses the [in] operator, which also finds what an
    object inherits: it accepts the six profile identifiers and, besides
    them, exactly the twelve property names of [Object.prototype], such as
    [toString], which name no profile. Distinct profiles have distinct
    identifiers. *)
Theorem profileExists_accepts (candidate : string) :
  (Profiles.profileExists candidate = true
   ↔ (∃ p, profile_tag p = candidate)
     ∨ candidate ∈ Profiles.Object_prototype_keys)
  ∧ (∀ p q, profile_tag p = profile_tag q → p = q)
  ∧ (∀ p, profile_tag p ∉ Profiles.Object_prototype_keys)
  ∧ length Profiles.Object_prototype_keys = 12%nat
  ∧ Profiles.profileExists "toString" = true.
Proof.
  split; [|split; [|split; [|split]]].
  - unfold Profiles.profileExists. rewrite bool_decide_eq_true, elem_of_app.
    rewrite list_elem_of_fmap. split.
    + intros [(p & -> & _)|Hin]; [left; eauto|by right].
    + intros [[p <-]|Hin]; [left|by right]. exists p. split; [done|].
      destruct p; apply (bool_decide_unpack _); by vm_compute.
  - by intros [] [].
  - intros p. apply (bool_decide_unpack _). by destruct p; vm_compute.
  - done.
  - by vm_compute.
Qed.

(** * Further scenarios *)

Module MoreScenarios.
Import Examples MoreExamples.

Lemma single_agent_order (st : AgentStatus) :
  insertion_order ["agent-A"] ({[ "agent-A" := agentA st ]} : gmap string AgentInstance).
Proof.
  split; [apply NoDup_singleton|]. intros k.
  rewrite list_elem_of_singleton. split.
  - intros ->. rewrite lookup_singleton_eq. eauto.
  - intros [a Ha]. by apply lookup_singleton_Some in Ha as [-> _].
Qed.

Lemma single_agent_keyed (st : AgentStatus) (bots : gset string) :
  keyed (store_with st bots).
Proof.
  intros id a Ha. simpl in Ha. by apply lookup_singleton_Some in Ha as [<- <-].
Qed.

Lemma two_agents_reachable : reachable_fresh two_agents.
Proof.
  unfold two_agents. simpl.
  apply reachable_fresh_step; [apply reachable_fresh_step|];
    [apply reachable_fresh_init|reflexivity..].
Qed.

Lemma one_agent_reachable : reachable_fresh one_agent.
Proof.
  apply reachable_fresh_step; [apply reachable_fresh_init|reflexivity].
Qed.

Lemma create_then_delete_witness :
  let fresh := agentA spawning in
  let s := initial_state (∅ : gset string) in
  (agentsStore s !! agentId fresh = None ∧ actionsStore s !! agentId fresh = None)
  ∧ (AgentRepository.create fresh ;; AgentRepository.delete (agentId fresh)) s
    = (Returned tt, s).
Proof.
  split; [split; reflexivity|].
  apply (create_then_delete (initial_state (∅ : gset string)) (agentA spawning));
    reflexivity.
Defined.

Lemma findActions_keeps_order_of_ties_witness :
  let first := entry "action-1" "2026-02-07T23:24:13.000Z" "agent-A" in
  let second := entry "action-2" "2026-02-07T23:24:23.000Z" "agent-A" in
  let third := entry "action-3" "2026-02-07T23:24:13.000Z" "agent-A" in
  actionsStore store_with_ties !! "agent-A" = Some [first; second; third]
  ∧ (AgentRepository.findActions "agent-A" None store_with_ties).1
    = Returned [second; first; third]
  ∧ ∃ sorted,
      actionsStore (AgentRepository.findActions "agent-A" None store_with_ties).2
        !! "agent-A" = Some sorted
      ∧ (AgentRepository.findActions "agent-A" None store_with_ties).1
        = Returned (Array_slice0 (default 100%Z None) sorted)
      ∧ filter (λ a, Date_getTime (timestamp a) = 20260207232413000%Z) sorted
        = filter (λ a, Date_getTime (timestamp a) = 20260207232413000%Z)
            [first; second; third].
Proof.
  split; [reflexivity|]. split; [reflexivity|].
  apply (findActions_keeps_order_of_ties store_with_ties "agent-A" None).
  reflexivity.
Defined.

Lemma findActions_negative_limit_witness :
  (0 < 1)%Z
  ∧ (AgentRepository.findActions "agent-A" (Some (-1)%Z) store_with_log).1
    = Returned [entry "action-2" "2026-02-07T23:24:23.000Z" "agent-A"]
  ∧ ∃ res,
      (AgentRepository.findActions "agent-A" (Some (- 1)%Z) store_with_log).1
      = Returned res
      ∧ res = take (length (Array_sort AgentRepository.newest_first
                              (default [] (actionsStore store_with_log !! "agent-A")))
                    - Z.to_nat 1)
                (Array_sort AgentRepository.newest_first
                   (default [] (actionsStore store_with_log !! "agent-A")))
      ∧ length res
        = (length (default [] (actionsStore store_with_log !! "agent-A"))
           - Z.to_nat 1)%nat.
Proof.
  assert (H01 : (0 < 1)%Z) by lia.
  split; [exact H01|]. split; [reflexivity|].
  exact (findActions_negative_limit store_with_log "agent-A" 1%Z H01).
Defined.

Lemma findAll_filters_and_sorts_witness :
  let filters := Some (mkFilters (Some "paused") (Some "")) in
  insertion_order ["agent-A"] (agentsStore store_with_log)
  ∧ AgentRepository.findAll ["agent-A"] filters store_with_log
    = (Returned [agentA paused], store_with_log)
  ∧ ∃ l,
      AgentRepository.findAll ["agent-A"] filters store_with_log
      = (Returned l, store_with_log)
      ∧ l ≡ₚ filter (λ a, passes filters a)
               (map_to_list (agentsStore store_with_log)).*2
      ∧ StronglySorted
          (λ a b, (Date_getTime (spawnedAt b) ≤ Date_getTime (spawnedAt a))%Z) l
      ∧ AgentRepository.count ["agent-A"] filters store_with_log
        = (Returned (length l), store_with_log)
      ∧ (filters = None → length l = size (agentsStore store_with_log)).
Proof.
  split; [apply single_agent_order|]. split; [reflexivity|].
  apply (findAll_filters_and_sorts store_with_log ["agent-A"]
           (Some (mkFilters (Some "paused") (Some "")))).
  apply single_agent_order.
Defined.

Lemma selectBehavior_in_list_witness :
  let random := (99 # 100)%Q in
  let profile := Profiles.getProfile cooperative in
  ((0 <= random)%Q ∧ (random < 1)%Q ∧ minecraftBehaviors profile ≠ [])
  ∧ BehaviorExecutor.selectBehavior random profile = "coordinate-with-team"
  ∧ BehaviorExecutor.selectBehavior random profile ∈ minecraftBehaviors profile.
Proof.
  assert (H0 : (0 <= 99 # 100)%Q) by discriminate.
  assert (H1 : (99 # 100 < 1)%Q) by reflexivity.
  assert (Hne : minecraftBehaviors (Profiles.getProfile cooperative) ≠ [])
    by discriminate.
  split; [by repeat split|]. split; [reflexivity|].
  exact (proj2 (proj2 (selectBehavior_in_list (99 # 100)
                         (Profiles.getProfile cooperative) H0 H1 Hne))).
Defined.
Lemma tick_performs_one_action_witness :
  let timer := mkTimer (agentA spawning)
                 (BehaviorExecutor.calculateInterval (mkFrequency 3 6)) in
  let r := BehaviorExecutor.tick 0%nat tick_1 one_agent in
  (timers one_agent !! 0%nat = Some timer
   ∧ getBot "bot-alice" (world one_agent) = Returned true
   ∧ agentsStore one_agent !! "agent-A" = Some (agentA active)
   ∧ (0 <= tick_random tick_1)%Q ∧ (tick_random tick_1 < 1)%Q)
  ∧ r.1 = Returned tt
  ∧ (actionCount <$> agentsStore r.2 !! "agent-A") = Some 1%Z
  ∧ (length <$> actionsStore r.2 !! "agent-A") = Some 1%nat
  ∧ scheduler_view r.2 = scheduler_view one_agent.
Proof.
  assert (H0 : (0 <= tick_random tick_1)%Q) by discriminate.
  assert (H1 : (tick_random tick_1 < 1)%Q) by reflexivity.
  set (timer := mkTimer (agentA spawning)
                  (BehaviorExecutor.calculateInterval (mkFrequency 3 6))).
  assert (Htimer : timers one_agent !! 0%nat = Some timer) by reflexivity.
  assert (Hbot : getBot (minecraftBotId (timer_agent timer)) (world one_agent)
                 = Returned true) by reflexivity.
  assert (Hcur : agentsStore one_agent !! agentId (timer_agent timer)
                 = Some (agentA active)) by reflexivity.
  split; [by repeat split|].
  destruct (tick_performs_one_action one_agent 0%nat tick_1 timer
              (agentA active) Htimer Hbot Hcur eq_refl eq_refl H0 H1)
    as (_ & Hret & Hlog & Hagents & Hsched & _).
  split; [exact Hret|]. split; [by rewrite Hagents|].
  split; [by rewrite Hlog|exact Hsched].
Defined.

Lemma tick_skips_witness :
  let s := (LifecycleManager.transitionStatus "agent-A" paused one_agent).2 in
  let s := (BehaviorExecutor.initialize (agentA paused) s).2 in
  (∀ timer, timers s !! 1%nat = Some timer →
     getBot (minecraftBotId (timer_agent timer)) (world s) ≠ Returned true
     ∨ stored_status (agentId (timer_agent timer)) s ≠ Some active)
  ∧ is_Some (timers s !! 1%nat)
  ∧ BehaviorExecutor.tick 1%nat tick_1 s = (Returned tt, s).
Proof.
  set (s := (BehaviorExecutor.initialize (agentA paused)
               (LifecycleManager.transitionStatus "agent-A" paused one_agent).2).2).
  assert (Hskip : ∀ timer, timers s !! 1%nat = Some timer →
     getBot (minecraftBotId (timer_agent timer)) (world s) ≠ Returned true
     ∨ stored_status (agentId (timer_agent timer)) s ≠ Some active).
  { intros timer [= <-]. right. discriminate. }
  split; [exact Hskip|]. split; [by eexists|].
  exact (tick_skips s 1%nat tick_1 Hskip).
Defined.

Lemma stop_undoes_initialize_witness :
  let s := store_with paused ∅ in
  let r := BehaviorExecutor.stop "agent-A"
             (BehaviorExecutor.initialize (agentA paused) s).2 in
  (activeExecutors s !! agentId (agentA paused) = None
   ∧ timers s !! nextTimeout s = None)
  ∧ timers r.2 = timers s
  ∧ activeExecutors r.2 = activeExecutors s
  ∧ nextTimeout r.2 = 1%nat.
Proof.
  split; [split; reflexivity|].
  destruct (stop_undoes_initialize (store_with paused ∅) (agentA paused)
              eq_refl eq_refl) as (_ & _ & Ht & He & Hn & _).
  split; [exact Ht|]. split; [exact He|exact Hn].
Defined.

Lemma stop_leaves_other_loops_witness :
  let r := BehaviorExecutor.stop "agent-A" two_agents in
  (timers_registered two_agents
   ∧ "agent-B" ≠ "agent-A"
   ∧ activeExecutors two_agents !! "agent-B" = Some 1%nat)
  ∧ activeExecutors r.2 !! "agent-A" = None
  ∧ activeExecutors r.2 !! "agent-B" = Some 1%nat
  ∧ timers r.2 !! 1%nat = timers two_agents !! 1%nat
  ∧ is_Some (timers r.2 !! 1%nat).
Proof.
  assert (Hreg : timers_registered two_agents)
    by apply (reachable_fresh_invariants _ two_agents_reachable).
  assert (Hne : "agent-B" ≠ "agent-A") by discriminate.
  split; [split; [exact Hreg|split; [exact Hne|reflexivity]]|].
  split; [reflexivity|].
  destruct (stop_leaves_other_loops two_agents "agent-A" "agent-B" 1%nat
              Hreg Hne eq_refl) as (He & Ht & Hset & _).
  split; [exact He|]. split; [exact Ht|exact Hset].
Defined.

Lemma pause_then_resume_restarts_witness :
  let halted := (LifecycleManager.transitionStatus "agent-A" paused one_agent).2 in
  let r := LifecycleManager.transitionStatus "agent-A" active halted in
  (agentsStore one_agent !! "agent-A" = Some (agentA active)
   ∧ timers_registered one_agent)
  ∧ activeExecutors one_agent !! "agent-A" = Some 0%nat
  ∧ ¬ has_loop "agent-A" halted
  ∧ stored_status "agent-A" r.2 = Some active
  ∧ activeExecutors r.2 !! "agent-A" = Some 1%nat
  ∧ (∀ h t, timers r.2 !! h = Some t → agentId (timer_agent t) = "agent-A" →
            h = 1%nat).
Proof.
  assert (Hreg : timers_registered one_agent)
    by apply (reachable_fresh_invariants _ one_agent_reachable).
  split; [split; [reflexivity|exact Hreg]|]. split; [reflexivity|].
  destruct (pause_then_resume_restarts one_agent "agent-A" (agentA active)
              eq_refl eq_refl Hreg)
    as ([Hno _] & _ & Hst & Hex & _ & Hone & _).
  split; [exact Hno|]. split; [exact Hst|]. split; [exact Hex|exact Hone].
Defined.

Lemma transition_without_case_witness :
  let r := LifecycleManager.transitionStatus "agent-A" idle one_agent in
  (agentsStore one_agent !! "agent-A" = Some (agentA active)
   ∧ (idle = idle ∨ idle = spawning))
  ∧ has_loop "agent-A" one_agent
  ∧ r.1 = Returned tt
  ∧ stored_status "agent-A" r.2 = Some idle
  ∧ has_loop "agent-A" r.2.
Proof.
  assert (Hloop : has_loop "agent-A" one_agent) by by exists 0%nat.
  split; [split; [reflexivity|by left]|]. split; [exact Hloop|].
  destruct (transition_without_case one_agent "agent-A" (agentA active) idle
              eq_refl (or_introl eq_refl))
    as (Hret & Hst & _ & Hkeep & _).
  split; [exact Hret|]. split; [exact Hst|exact (Hkeep Hloop)].
Defined.

Lemma records_persist_and_counters_grow_witness :
  let ops := [OpTick 0%nat tick_1; OpPause "agent-A"; OpResume "agent-A";
              OpTick 1%nat tick_1; OpTerminate "agent-A"] in
  (consistent one_agent ∧ fresh_run ops one_agent
   ∧ agentsStore one_agent !! "agent-A" = Some (agentA active))
  ∧ (actionCount <$> agentsStore (after_all ops one_agent) !! "agent-A") = Some 2%Z
  ∧ ∃ a', agentsStore (after_all ops one_agent) !! "agent-A" = Some a'
          ∧ same_agent_later (agentA active) a'.
Proof.
  set (ops := [OpTick 0%nat tick_1; OpPause "agent-A"; OpResume "agent-A";
               OpTick 1%nat tick_1; OpTerminate "agent-A"]).
  assert (Hcons : consistent one_agent)
    by apply (reachable_fresh_invariants _ one_agent_reachable).
  assert (Hfresh : fresh_run ops one_agent) by (simpl; tauto).
  split; [split; [exact Hcons|split; [exact Hfresh|reflexivity]]|].
  split; [reflexivity|].
  exact (records_persist_and_counters_grow ops one_agent "agent-A"
           (agentA active) Hcons Hfresh eq_refl).
Defined.

Lemma cleanupAll_terminates_active_agents_witness :
  let s := store_with active {[ "bot-alice" ]} in
  let r := LifecycleManager.cleanupAll ["agent-A"] s in
  (insertion_order ["agent-A"] (agentsStore s) ∧ keyed s)
  ∧ r.1 = Returned tt
  ∧ stored_status "agent-A" r.2 = Some terminated
  ∧ disconnects r.2 = ["bot-alice"]
  ∧ ∀ id, stored_status id r.2 ≠ Some active.
Proof.
  assert (Horder : insertion_order ["agent-A"]
                     (agentsStore (store_with active {[ "bot-alice" ]})))
    by apply single_agent_order.
  assert (Hkeyed : keyed (store_with active {[ "bot-alice" ]}))
    by apply single_agent_keyed.
  split; [split; [exact Horder|exact Hkeyed]|].
  destruct (cleanupAll_terminates_active_agents
              (store_with active {[ "bot-alice" ]}) ["agent-A"] Horder Hkeyed)
    as (Hret & _ & Hnone & _).
  split; [exact Hret|]. split; [reflexivity|]. split; [reflexivity|exact Hnone].
Defined.

Lemma health_issues_and_causes_witness :
  let s := store_with active ∅ in
  (agentsStore s !! "agent-A" = Some (agentA active)
   ∧ getBot (minecraftBotId (agentA active)) (world s) = Returned false)
  ∧ (LifecycleManager.getHealthStatus 0 "agent-A" s).1
    = Returned (mkHealth false ["Minecraft bot not found";
                                "Behavior executor not running"])
  ∧ ∃ h, (LifecycleManager.getHealthStatus 0 "agent-A" s).1 = Returned h
         ∧ ("Minecraft bot not found" ∈ issues h ↔ false = false)
         ∧ ("Behavior executor not running" ∈ issues h
            ↔ status (agentA active) = active ∧ ¬ has_loop "agent-A" s).
Proof.
  assert (Hsome : agentsStore (store_with active ∅) !! "agent-A"
                  = Some (agentA active)) by reflexivity.
  assert (Hfound : getBot (minecraftBotId (agentA active))
                     (world (store_with active ∅)) = Returned false)
    by reflexivity.
  split; [split; [exact Hsome|exact Hfound]|]. split; [reflexivity|].
  destruct (health_issues_and_causes (store_with active ∅) 0 "agent-A"
              (agentA active) false Hsome Hfound)
    as (h & Hh & Hbot & Hexec & _).
  exists h. split; [exact Hh|]. split; [exact Hbot|exact Hexec].
Defined.
End MoreScenarios.
